(** * IECoreArnold::ShapeAlgo

    A shallow embedding of
    [contrib/IECoreArnold/src/IECoreArnold/ShapeAlgo.cpp]: the translation
    of Cortex primitives (positions, radius, primitive variables) into the
    parameters and arrays of an Arnold shape node.

    Effects are the calls the code makes on its collaborators (the Arnold
    node API, the array builders, the message handler); they are recorded,
    in order, in a trace that is threaded through a small state-and-error
    monad. *)

From Stdlib Require Import ZArith String Ascii List.
From Stdlib Require Import Floats.SpecFloat.
From stdpp Require Import base option list list_numbers strings gmap sorting.

Local Open Scope string_scope.
Local Open Scope Z_scope.
Local Open Scope list_scope.

(** ** Floats

    [float] in the source is IEEE 754 binary32: 24 bits of precision,
    maximal exponent 128.  [SpecFloat] gives its values and its correctly
    rounded division. *)

Module Float32.

Definition prec : Z := 24.
Definition emax : Z := 128.

Definition float32 : Type := spec_float.

Definition div (x y : float32) : float32 := SFdiv prec emax x y.

(** The literals [2.0f] and [0.5f]. *)
Definition two : float32 := S754_finite false 8388608 (-22).
Definition half : float32 := S754_finite false 8388608 (-24).

(** A few more literals, for examples. *)
Definition one : float32 := S754_finite false 8388608 (-23).
Definition three : float32 := S754_finite false 12582912 (-22).
Definition four : float32 := S754_finite false 8388608 (-21).

#[global] Instance float32_eq_dec : EqDecision float32.
Proof. unfold float32. solve_decision. Defined.

End Float32.

Import Float32.

(** ** Cortex data (IECore/SimpleTypedData.h, IECore/VectorTypedData.h) *)

Record V3f : Type := mkV3f { v3x : float32; v3y : float32; v3z : float32 }.

(** The payload of a primitive variable.  The source tells apart, with
    [runTimeCast], the three types below; every other [Data] subclass is
    [OtherData], which keeps its type name. *)
Inductive Data : Type :=
| FloatData (v : float32)
| FloatVectorData (v : list float32)
| V3fVectorData (v : list V3f)
| OtherData (name : string).

Definition typeName (d : Data) : string :=
  match d with
  | FloatData _ => "FloatData"
  | FloatVectorData _ => "FloatVectorData"
  | V3fVectorData _ => "V3fVectorData"
  | OtherData n => n
  end.

(** [runTimeCast<T>( data )], one function per target type used by the
    source; [None] is the null pointer. *)
Definition castFloatData (d : Data) : option float32 :=
  match d with FloatData v => Some v | _ => None end.

Definition castFloatVectorData (d : Data) : option (list float32) :=
  match d with FloatVectorData v => Some v | _ => None end.

Definition castV3fVectorData (d : Data) : option (list V3f) :=
  match d with V3fVectorData v => Some v | _ => None end.

(** ** Primitives (IECore/Primitive.h, IECore/PrimitiveVariable.h) *)

Inductive Interpolation : Type :=
| Invalid | Constant | Uniform | Vertex | Varying | FaceVarying.

#[global] Instance Interpolation_eq_dec : EqDecision Interpolation.
Proof. solve_decision. Defined.

Record PrimitiveVariable : Type := mkPrimitiveVariable {
  interpolation : Interpolation;
  data : Data
}.

Inductive TypeId : Type :=
| PointsPrimitiveTypeId
| MeshPrimitiveTypeId
| CurvesPrimitiveTypeId
| OtherPrimitiveTypeId.

#[global] Instance TypeId_eq_dec : EqDecision TypeId.
Proof. solve_decision. Defined.

(** Modelled from the spec: the host's primitive container
    (IECore/Primitive.h) is not part of the translated file.  A primitive
    exposes its named attributes ([variables], a [std::map] keyed by
    name), the query [variableSize( interpolation )] and its concrete
    kind. *)
Record Primitive : Type := mkPrimitive {
  typeId : TypeId;
  variables : gmap string PrimitiveVariable;
  variableSize : Interpolation -> Z
}.

(** Modelled from the spec: the kind discriminator.  Points, meshes and
    curves are sibling classes, so a primitive is an instance of exactly
    its own kind among them. *)
Definition isInstanceOf (p : Primitive) (t : TypeId) : bool :=
  bool_decide (typeId p = t).

(** Modelled from the spec: attribute lookup by name,
    [Primitive::variableData<T>( name, requiredInterpolation )].  The
    attribute must exist, must have the required interpolation when one
    other than [Invalid] is asked for, and its payload must cast to [T]. *)
Definition variableData {T : Type} (cast : Data -> option T)
    (p : Primitive) (name : string) (requiredInterpolation : Interpolation)
  : option T :=
  match variables p !! name with
  | None => None
  | Some pv =>
      if bool_decide (requiredInterpolation <> Invalid)
         && negb (bool_decide (interpolation pv = requiredInterpolation))
      then None
      else cast (data pv)
  end.

(** Iteration from [variables.begin()] to [variables.end()]: a
    [std::map] is walked in ascending key order. *)
Definition key_le (a b : string * PrimitiveVariable) : Prop :=
  String.leb a.1 b.1 = true.

#[global] Instance key_le_dec : RelDecision key_le.
Proof. intros a b. unfold key_le. solve_decision. Defined.

Definition iterate (m : gmap string PrimitiveVariable)
  : list (string * PrimitiveVariable) :=
  merge_sort key_le (map_to_list m).

(** ** radius (lines 66-99) *)

Definition radius (primitive : Primitive) : list float32 :=
  match variableData castFloatVectorData primitive "radius" Invalid with
  | Some radius => radius
  | None =>
      match variableData castFloatData primitive "radius" Constant with
      | Some constantRadius => [constantRadius]
      | None =>
          match variableData castFloatVectorData primitive "width" Invalid with
          | Some width => (fun w => div w two) <$> width
          | None =>
              let constantWidth :=
                match variableData castFloatData primitive "width" Constant with
                | Some cw => Some cw
                | None =>
                    variableData castFloatData primitive "constantwidth" Constant
                end in
              let r :=
                match constantWidth with
                | Some cw => div cw two
                | None => half
                end in
              [r]
          end
      end
  end.

(** ** The Arnold side (ai.h) and the trace of calls *)

(** [AtArray]: the elements, their number per key, the number of keys
    and the element type code. *)
Inductive AtValue : Type :=
| AtUInt (v : Z)
| AtFloat (v : float32)
| AtPoint (v : V3f).

Record AtArray : Type := mkAtArray {
  elements : list AtValue;
  nelements : Z;
  nkeys : Z;
  type : Z
}.

(** The built-in parameters of a node's type, and the node. *)
Record AtNodeEntry : Type := mkAtNodeEntry { params : list string }.
Record AtNode : Type := mkAtNode { nodeEntry : AtNodeEntry }.

Definition AiNodeGetNodeEntry (node : AtNode) : AtNodeEntry := nodeEntry node.

(** [None] is [NULL]: no built-in parameter of that name. *)
Definition AiNodeEntryLookUpParameter (entry : AtNodeEntry) (name : string)
  : option string :=
  List.find (String.eqb name) (params entry).

Inductive Level : Type := Error | Warning | Info | Debug.

(** One constructor per collaborator routine that has an effect: on the
    shape node, on the message handler, or the construction of an array. *)
Inductive Call : Type :=
| call_msg (level : Level) (context message : string)
| call_AiNodeDeclare (name declaration : string)
| call_AiNodeSetArray (name : string) (array : option AtArray)
| call_setParameter (name : string) (value : Data)
| call_dataToArray (value : Data) (aiType : Z)
| call_samplesToArray (samples : list Data) (aiType : Z)
| call_AiArrayConvert (n k aiType : Z)
| call_AiArrayAllocate (n k aiType : Z).

(** The calls that write to the shape node. *)
Definition mutatesNode (c : Call) : bool :=
  match c with
  | call_AiNodeDeclare _ _ | call_AiNodeSetArray _ _ | call_setParameter _ _ => true
  | _ => false
  end.

Definition isWarning (c : Call) : bool :=
  match c with
  | call_msg Warning _ _ => true
  | _ => false
  end.

Definition Trace : Type := list Call.

(** ** The monad: a trace threaded through, and exceptions *)

Inductive Exception : Type := mkException (what : string).

Inductive Result (A : Type) : Type :=
| Ok (a : A)
| Throw (e : Exception).
Arguments Ok {A} a.
Arguments Throw {A} e.

Definition M (A : Type) : Type := Trace -> Result A * Trace.

#[global] Instance M_ret : MRet M := fun A a t => (Ok a, t).

#[global] Instance M_bind : MBind M := fun A B f m t =>
  match m t with
  | (Ok a, t') => f a t'
  | (Throw e, t') => (Throw e, t')
  end.

Definition throw {A : Type} (e : Exception) : M A := fun t => (Throw e, t).

Definition call (c : Call) : M unit := fun t => (Ok (), t ++ [c]).

Definition failed {A : Type} (r : Result A) : bool :=
  match r with Ok _ => false | Throw _ => true end.

(** 32-bit conversions at the Arnold interface ([AtUInt32], [int]). *)
Definition to_uint32 (z : Z) : Z := z mod 2 ^ 32.
Definition to_int32 (z : Z) : Z := (z + 2 ^ 31) mod 2 ^ 32 - 2 ^ 31.

(** The double quote, for the messages. *)
Definition dq : string := String (ascii_of_nat 34) EmptyString.

Definition missingP : Exception :=
  mkException ("Primitive does not have " +:+ dq +:+ "P" +:+ dq
               +:+ " primitive variable of interpolation type Vertex.").

(** The collaborators whose code is elsewhere: the type codes of ai.h,
    [AiParamGetTypeName], and [ParameterAlgo::parameterType] and the two
    [ParameterAlgo::dataToArray] overloads, each a black box from typed
    data to a type code or an array ([None] for a null array). *)
Class Collaborators : Type := mkCollaborators {
  AI_TYPE_NONE : Z;
  AI_TYPE_UINT : Z;
  AI_TYPE_FLOAT : Z;
  AI_TYPE_POINT : Z;
  AiParamGetTypeName : Z -> string;
  parameterType : Data -> Z * bool;
  dataToArray : Data -> Z -> option AtArray;
  samplesToArray : list Data -> Z -> option AtArray
}.

Module ShapeAlgo.

Section WithCollaborators.

Context `{Collaborators}.

(** [AiArrayAllocate( nelements, nkeys, type )]: the arguments are
    narrowed to [AtUInt32] and [AtByte]; a fresh array of zeros. *)
Definition AiArrayAllocate (n k t : Z) : M AtArray :=
  call (call_AiArrayAllocate n k t);;
  mret (mkAtArray (replicate (Z.to_nat (to_uint32 n * k)) (AtUInt 0))
                  (to_uint32 n) k t).

(** [AiArraySetInt( array, i, val )]: index narrowed to [AtUInt32], value
    to [int]; the slot of an unsigned array reads the same 32 bits back.
    An index out of range writes nothing. *)
Definition AiArraySetInt (a : AtArray) (i val : Z) : AtArray :=
  mkAtArray (<[Z.to_nat (to_uint32 i) := AtUInt (to_uint32 (to_int32 val))]> (elements a))
            (nelements a) (nkeys a) (type a).

(** [AiArrayConvert( nelements, nkeys, type, data )]: a copy of the
    buffer. *)
Definition AiArrayConvert (n k t : Z) (buffer : list AtValue) : M AtArray :=
  call (call_AiArrayConvert n k t);;
  mret (mkAtArray (take (Z.to_nat (to_uint32 n * k)) buffer) (to_uint32 n) k t).

(** ** identityIndices (lines 56-64) *)
Definition identityIndices (size : Z) : M AtArray :=
  result ← AiArrayAllocate size 1 AI_TYPE_UINT;
  mret (foldl (fun result i => AiArraySetInt result i i) result (seqZ 0 size)).

(** ** convertP, one primitive (lines 113-126) *)
Definition convertP (primitive : Primitive) (shape : AtNode) (name : string)
  : M unit :=
  match variableData castV3fVectorData primitive "P" Vertex with
  | None => throw missingP
  | Some p =>
      array ← AiArrayConvert (Z.of_nat (length p)) 1 AI_TYPE_POINT (AtPoint <$> p);
      call (call_AiNodeSetArray name (Some array))
  end.

(** ** convertP, motion samples (lines 128-145) *)
Fixpoint collectP (samples : list Primitive) (dataSamples : list Data)
  : M (list Data) :=
  match samples with
  | [] => mret dataSamples
  | it :: rest =>
      match variableData castV3fVectorData it "P" Vertex with
      | None => throw missingP
      | Some p => collectP rest (dataSamples ++ [V3fVectorData p])
      end
  end.

Definition convertPSamples (samples : list Primitive) (shape : AtNode)
    (name : string) : M unit :=
  dataSamples ← collectP samples [];
  call (call_samplesToArray dataSamples AI_TYPE_POINT);;
  call (call_AiNodeSetArray name (samplesToArray dataSamples AI_TYPE_POINT)).

(** ** convertRadius (lines 147-174) *)
Definition convertRadius (primitive : Primitive) (shape : AtNode) : M unit :=
  let r := radius primitive in
  array ← AiArrayConvert (Z.of_nat (length r)) 1 AI_TYPE_FLOAT (AtFloat <$> r);
  call (call_AiNodeSetArray "radius" (Some array)).

Definition convertRadiusSamples (samples : list Primitive) (shape : AtNode)
  : M unit :=
  let dataSamples := (fun it => FloatVectorData (radius it)) <$> samples in
  call (call_samplesToArray dataSamples AI_TYPE_FLOAT);;
  call (call_AiNodeSetArray "radius" (samplesToArray dataSamples AI_TYPE_FLOAT)).

(** ** convertPrimitiveVariable (lines 176-297) *)

Definition context : string := "ShapeAlgo::convertPrimitiveVariable".

Definition clashMessage (name : string) : string :=
  "Primitive variable " +:+ dq +:+ name +:+ dq
  +:+ " will be ignored because it clashes with Arnold's built-in parameters".

Definition unsupportedInterpolationMessage (name : string) : string :=
  "Unable to create user parameter " +:+ dq +:+ name +:+ dq
  +:+ " because primitive variable has unsupported interpolation".

Definition unsupportedTypeMessage (name dataType : string) : string :=
  "Unable to create user parameter " +:+ dq +:+ name +:+ dq
  +:+ " for primitive variable of type " +:+ dq +:+ dataType +:+ dq.

Definition failedArrayMessage (name dataType : string) : string :=
  "Failed to create array for parameter " +:+ dq +:+ name +:+ dq
  +:+ " from data of type " +:+ dq +:+ dataType +:+ dq.

(** The [Vertex] case of the switch (lines 214-223), also reached by
    falling through from [FaceVarying]. *)
Definition vertexCase (primitive : Primitive) (primitiveVariable : PrimitiveVariable)
  : string :=
  if variableSize primitive (interpolation primitiveVariable)
     =? variableSize primitive Varying
  then "varying"
  else EmptyString.

(** The switch on the interpolation (lines 194-226): the value of
    [arnoldInterpolation] after it, empty when no case assigned it. *)
Definition interpolationSwitch (primitive : Primitive)
    (primitiveVariable : PrimitiveVariable) : string :=
  match interpolation primitiveVariable with
  | Constant => "constant"
  | Uniform => "uniform"
  | Varying => "varying"
  | FaceVarying =>
      if isInstanceOf primitive MeshPrimitiveTypeId
      then "indexed"
      else vertexCase primitive primitiveVariable
  | Vertex => vertexCase primitive primitiveVariable
  | Invalid => EmptyString
  end.

(** The override for points primitives (lines 238-250). *)
Definition pointsOverride (primitive : Primitive) (arnoldInterpolation : string)
  : string :=
  if isInstanceOf primitive PointsPrimitiveTypeId
  then
    if String.eqb arnoldInterpolation "uniform" then "constant"
    else if String.eqb arnoldInterpolation "varying" then "uniform"
    else arnoldInterpolation
  else arnoldInterpolation.

Definition convertPrimitiveVariable (primitive : Primitive)
    (primitiveVariable : PrimitiveVariable) (shape : AtNode) (name : string)
  : M unit :=
  let entry := AiNodeGetNodeEntry shape in
  match AiNodeEntryLookUpParameter entry name with
  | Some _ => call (call_msg Warning context (clashMessage name))
  | None =>
      let arnoldInterpolation := interpolationSwitch primitive primitiveVariable in
      if String.eqb arnoldInterpolation EmptyString
      then call (call_msg Warning context (unsupportedInterpolationMessage name))
      else
        let arnoldInterpolation := pointsOverride primitive arnoldInterpolation in
        if String.eqb arnoldInterpolation "constant"
        then call (call_setParameter name (data primitiveVariable))
        else
          let '(type, isArray) := parameterType (data primitiveVariable) in
          if (type =? AI_TYPE_NONE) || negb isArray
          then call (call_msg Warning context
                       (unsupportedTypeMessage name (typeName (data primitiveVariable))))
          else
            let typeString :=
              arnoldInterpolation +:+ " " +:+ AiParamGetTypeName type in
            call (call_AiNodeDeclare name typeString);;
            call (call_dataToArray (data primitiveVariable) type);;
            match dataToArray (data primitiveVariable) type with
            | Some array =>
                call (call_AiNodeSetArray name (Some array));;
                if String.eqb arnoldInterpolation "indexed"
                then
                  indices ← identityIndices (nelements array);
                  call (call_AiNodeSetArray (name +:+ "idxs") (Some indices))
                else mret ()
            | None =>
                call (call_msg Warning context
                        (failedArrayMessage name (typeName (data primitiveVariable))))
            end
  end.

(** ** convertPrimitiveVariables (lines 299-322) *)

(** The inner loop over the null-terminated [namesToIgnore] (lines
    305-313): the value of [skip] after it. *)
Fixpoint skipLoop (first : string) (n : list string) : bool :=
  match n with
  | [] => false
  | n0 :: rest => if String.eqb first n0 then true else skipLoop first rest
  end.

(** The outer loop (lines 301-321) over the entries of [variables], with
    the call of line 320 as [body].  [namesToIgnore] is [None] for a null
    pointer, and otherwise the names before the terminating null. *)
Fixpoint variablesLoop (body : PrimitiveVariable -> string -> M unit)
    (namesToIgnore : option (list string))
    (its : list (string * PrimitiveVariable)) : M unit :=
  match its with
  | [] => mret ()
  | it :: rest =>
      let skip :=
        match namesToIgnore with
        | Some n => skipLoop it.1 n
        | None => false
        end in
      if skip
      then variablesLoop body namesToIgnore rest
      else body it.2 it.1;; variablesLoop body namesToIgnore rest
  end.

Definition convertPrimitiveVariables (primitive : Primitive) (shape : AtNode)
    (namesToIgnore : option (list string)) : M unit :=
  variablesLoop
    (fun second first => convertPrimitiveVariable primitive second shape first)
    namesToIgnore (iterate (variables primitive)).

End WithCollaborators.

End ShapeAlgo.

(** ** Sample collaborators, for the examples

    Type codes as in Arnold 4's ai_params.h; float and point vectors
    become arrays, everything else has no array type. *)
Module Sample.

Definition typeNameOf (t : Z) : string :=
  if t =? 2 then "UINT" else if t =? 4 then "FLOAT"
  else if t =? 8 then "POINT" else "UNDEFINED".

Definition paramType (d : Data) : Z * bool :=
  match d with
  | FloatData _ => (4, false)
  | FloatVectorData _ => (4, true)
  | V3fVectorData _ => (8, true)
  | OtherData _ => (255, false)
  end.

Definition toArray (d : Data) (t : Z) : option AtArray :=
  match d with
  | FloatVectorData v =>
      Some (mkAtArray (AtFloat <$> v) (Z.of_nat (length v)) 1 t)
  | V3fVectorData v =>
      Some (mkAtArray (AtPoint <$> v) (Z.of_nat (length v)) 1 t)
  | _ => None
  end.

Definition samplesArray (ds : list Data) (t : Z) : option AtArray :=
  match ds with
  | [] => None
  | d :: _ =>
      match toArray d t with
      | Some a =>
          Some (mkAtArray (elements a) (nelements a) (Z.of_nat (length ds)) t)
      | None => None
      end
  end.

(** Builders that work. *)
Definition working : Collaborators :=
  mkCollaborators 255 2 4 8 typeNameOf paramType toArray samplesArray.

(** Builders that return a null array. *)
Definition failing : Collaborators :=
  mkCollaborators 255 2 4 8 typeNameOf paramType
    (fun _ _ => None) (fun _ _ => None).

Definition polymesh : AtNode :=
  mkAtNode (mkAtNodeEntry ["name"; "vlist"; "vidxs"; "nsides"; "visibility"]).

End Sample.

(** ** Example primitives *)
Module Examples.

Definition flat (n : Z) : Interpolation -> Z := fun _ => n.

(** A constant radius next to per-element widths. *)
Definition radiusAndWidth : Primitive :=
  mkPrimitive PointsPrimitiveTypeId
    (<["radius" := mkPrimitiveVariable Constant (FloatData three)]>
       (<["width" := mkPrimitiveVariable Vertex (FloatVectorData [two; four])]> ∅))
    (flat 2).

(** A per-element radius attribute that holds no element. *)
Definition emptyRadius : Primitive :=
  mkPrimitive PointsPrimitiveTypeId
    (<["radius" := mkPrimitiveVariable Vertex (FloatVectorData [])]> ∅)
    (flat 0).

(** Cubic curves: more vertices than varying values. *)
Definition cubicSizes (i : Interpolation) : Z :=
  match i with
  | Vertex => 4
  | Varying => 2
  | _ => 1
  end.

Definition perVertex : PrimitiveVariable :=
  mkPrimitiveVariable Vertex (FloatVectorData [one; two; three; four]).

Definition cubicCurves : Primitive :=
  mkPrimitive CurvesPrimitiveTypeId (<["N" := perVertex]> ∅) cubicSizes.

(** A mesh with one value per face corner. *)
Definition perCorner : PrimitiveVariable :=
  mkPrimitiveVariable FaceVarying (FloatVectorData [two; four; one]).

Definition triangle : Primitive :=
  mkPrimitive MeshPrimitiveTypeId (<["st" := perCorner]> ∅) (flat 3).

(** A "radius" that is a single float, but with [Uniform] interpolation,
    next to a constant width. *)
Definition uniformRadius : Primitive :=
  mkPrimitive PointsPrimitiveTypeId
    (<["radius" := mkPrimitiveVariable Uniform (FloatData three)]>
       (<["width" := mkPrimitiveVariable Constant (FloatData four)]> ∅))
    (flat 2).

(** Data of a type with no Arnold array. *)
Definition labels : PrimitiveVariable :=
  mkPrimitiveVariable Varying (OtherData "StringVectorData").

(** An attribute that was never given an interpolation. *)
Definition unset : PrimitiveVariable :=
  mkPrimitiveVariable Invalid (FloatVectorData [one]).

(** Two positions, per vertex. *)
Definition positions : list V3f := [mkV3f one two three; mkV3f four one two].

Definition withP : Primitive :=
  mkPrimitive PointsPrimitiveTypeId
    (<["P" := mkPrimitiveVariable Vertex (V3fVectorData positions)]> ∅)
    (flat 2).

(** No attribute at all. *)
Definition bare : Primitive := mkPrimitive PointsPrimitiveTypeId ∅ (flat 1).

(** Per-element widths and no radius. *)
Definition widthsOnly : Primitive :=
  mkPrimitive PointsPrimitiveTypeId
    (<["width" := mkPrimitiveVariable Vertex (FloatVectorData [two; four])]> ∅)
    (flat 2).

(** Attributes for a points primitive. *)
Definition perPrimitive : PrimitiveVariable :=
  mkPrimitiveVariable Uniform (FloatVectorData [one]).

Definition perPoint : PrimitiveVariable :=
  mkPrimitiveVariable Varying (FloatVectorData [one; two]).

End Examples.

(** ** Where the radius comes from *)

(** The attribute [name] holds per-element floats [v], whatever its
    interpolation. *)
Definition perElement (p : Primitive) (name : string) (v : list float32) : Prop :=
  exists i, variables p !! name = Some (mkPrimitiveVariable i (FloatVectorData v)).

(** The attribute [name] holds the single float [c], with [Constant]
    interpolation. *)
Definition constantFloat (p : Primitive) (name : string) (c : float32) : Prop :=
  variables p !! name = Some (mkPrimitiveVariable Constant (FloatData c)).

Definition noPerElement (p : Primitive) (name : string) : Prop :=
  forall v, ~ perElement p name v.

Definition noConstantFloat (p : Primitive) (name : string) : Prop :=
  forall c, ~ constantFloat p name c.

Definition halved (w : list float32) : list float32 :=
  (fun x => div x two) <$> w.

(** The sources of the radius, each under the condition that no earlier
    one applies: per-element radius, constant radius, per-element width,
    constant width, its alias, the default. *)
Inductive derives (p : Primitive) : list float32 -> Prop :=
| from_radius r :
    perElement p "radius" r ->
    derives p r
| from_constant_radius c :
    noPerElement p "radius" ->
    constantFloat p "radius" c ->
    derives p [c]
| from_width w :
    noPerElement p "radius" -> noConstantFloat p "radius" ->
    perElement p "width" w ->
    derives p (halved w)
| from_constant_width c :
    noPerElement p "radius" -> noConstantFloat p "radius" ->
    noPerElement p "width" ->
    constantFloat p "width" c ->
    derives p [div c two]
| from_constantwidth c :
    noPerElement p "radius" -> noConstantFloat p "radius" ->
    noPerElement p "width" -> noConstantFloat p "width" ->
    constantFloat p "constantwidth" c ->
    derives p [div c two]
| from_default :
    noPerElement p "radius" -> noConstantFloat p "radius" ->
    noPerElement p "width" -> noConstantFloat p "width" ->
    noConstantFloat p "constantwidth" ->
    derives p [half].

(** The order of the data model, in its words: per-element radius, then
    per-element width halved, then constant radius, then constant width or
    its alias halved, then the default. *)
Definition radiusInStatedOrder (primitive : Primitive) : list float32 :=
  match variableData castFloatVectorData primitive "radius" Invalid with
  | Some radius => radius
  | None =>
      match variableData castFloatVectorData primitive "width" Invalid with
      | Some width => halved width
      | None =>
          match variableData castFloatData primitive "radius" Constant with
          | Some constantRadius => [constantRadius]
          | None =>
              match variableData castFloatData primitive "width" Constant with
              | Some cw => [div cw two]
              | None =>
                  match variableData castFloatData primitive "constantwidth" Constant with
                  | Some cw => [div cw two]
                  | None => [half]
                  end
              end
          end
      end
  end.

(** The cases in which no element comes out. *)
Definition emptySource (p : Primitive) : Prop :=
  perElement p "radius" []
  \/ (noPerElement p "radius" /\ noConstantFloat p "radius" /\ perElement p "width" []).

(** ** Words for the conversions *)

Import ShapeAlgo.

(** No built-in parameter of the shape has this name. *)
Definition noClash (shape : AtNode) (name : string) : Prop :=
  AiNodeEntryLookUpParameter (AiNodeGetNodeEntry shape) name = None.

(** The mode the conversion works with, after the switch and the points
    override. *)
Definition resolvedMode (p : Primitive) (pv : PrimitiveVariable) : string :=
  pointsOverride p (interpolationSwitch p pv).

(** The primitive has a [V3fVectorData] attribute "P" with [Vertex]
    interpolation. *)
Definition hasP (p : Primitive) : Prop :=
  exists v, variables p !! "P" = Some (mkPrimitiveVariable Vertex (V3fVectorData v)).

(** [body] on each entry of the list, in order. *)
Definition forEach (body : PrimitiveVariable -> string -> M unit)
    (l : list (string * PrimitiveVariable)) : M unit :=
  foldr (fun it rest => body it.2 it.1;; rest) (mret ()) l.

(** The names to ignore: none for a null pointer. *)
Definition ignored (namesToIgnore : option (list string)) : list string :=
  match namesToIgnore with
  | Some n => n
  | None => []
  end.

(** The attributes that are not ignored, in the order of the map. *)
Definition invoked (namesToIgnore : option (list string)) (p : Primitive)
  : list (string * PrimitiveVariable) :=
  filter (fun it => it.1 ∉ ignored namesToIgnore) (iterate (variables p)).

(** How many entries of the list have the name [n]. *)
Definition times (n : string) (l : list (string * PrimitiveVariable)) : nat :=
  length (filter (fun it => it.1 = n) l).

Section AfterArray.

Context `{Collaborators}.

(** What follows the array construction (lines 277-296). *)
Definition afterArray (mode name : string) (pv : PrimitiveVariable) (type : Z)
  : M unit :=
  match dataToArray (data pv) type with
  | Some array =>
      call (call_AiNodeSetArray name (Some array));;
      if String.eqb mode "indexed"
      then
        indices ← identityIndices (nelements array);
        call (call_AiNodeSetArray (name +:+ "idxs") (Some indices))
      else mret ()
  | None =>
      call (call_msg Warning context (failedArrayMessage name (typeName (data pv))))
  end.

End AfterArray.

(** ** Words for the calls of one conversion *)

(** The primitive with one attribute removed. *)
Definition withoutVariable (p : Primitive) (name : string) : Primitive :=
  mkPrimitive (typeId p) (delete name (variables p)) (variableSize p).

(** The parameter of the node that a call writes to. *)
Definition target (c : Call) : option string :=
  match c with
  | call_AiNodeDeclare n _ | call_AiNodeSetArray n _ | call_setParameter n _ =>
      Some n
  | _ => None
  end.

(** The calls that give a parameter a value. *)
Definition setsValue (c : Call) : bool :=
  match c with
  | call_AiNodeSetArray _ _ | call_setParameter _ _ => true
  | _ => false
  end.

(** The three modes a parameter is declared with. *)
Definition arrayModes : list string := ["uniform"; "varying"; "indexed"].

Section Outcomes.

Context `{Collaborators}.

(** The calls of the conversion of one attribute, from an empty trace. *)
Definition callsOf (p : Primitive) (pv : PrimitiveVariable) (shape : AtNode)
    (name : string) : Trace :=
  (convertPrimitiveVariable p pv shape name []).2.

(** The conversion gets as far as the declaration (line 275), with the
    element type [ty]. *)
Definition declares (p : Primitive) (pv : PrimitiveVariable) (shape : AtNode)
    (name : string) (ty : Z) : Prop :=
  noClash shape name
  /\ interpolationSwitch p pv <> EmptyString
  /\ resolvedMode p pv <> "constant"
  /\ parameterType (data pv) = (ty, true)
  /\ ty <> AI_TYPE_NONE.

Definition declaration (p : Primitive) (pv : PrimitiveVariable) (name : string)
    (ty : Z) : Call :=
  call_AiNodeDeclare name (resolvedMode p pv +:+ " " +:+ AiParamGetTypeName ty).

(** The ways through [convertPrimitiveVariable], each with the calls it
    makes: the four returns with a warning or a constant, and the three
    ends of the array branch. *)
Inductive outcome (p : Primitive) (pv : PrimitiveVariable) (shape : AtNode)
    (name : string) : Trace -> Prop :=
| out_clash :
    ~ noClash shape name ->
    outcome p pv shape name [call_msg Warning context (clashMessage name)]
| out_interpolation :
    noClash shape name ->
    interpolationSwitch p pv = EmptyString ->
    outcome p pv shape name
      [call_msg Warning context (unsupportedInterpolationMessage name)]
| out_constant :
    noClash shape name ->
    interpolationSwitch p pv <> EmptyString ->
    resolvedMode p pv = "constant" ->
    outcome p pv shape name [call_setParameter name (data pv)]
| out_type ty isArray :
    noClash shape name ->
    interpolationSwitch p pv <> EmptyString ->
    resolvedMode p pv <> "constant" ->
    parameterType (data pv) = (ty, isArray) ->
    ty = AI_TYPE_NONE \/ isArray = false ->
    outcome p pv shape name
      [call_msg Warning context
         (unsupportedTypeMessage name (typeName (data pv)))]
| out_null ty :
    declares p pv shape name ty ->
    dataToArray (data pv) ty = None ->
    outcome p pv shape name
      [declaration p pv name ty;
       call_dataToArray (data pv) ty;
       call_msg Warning context (failedArrayMessage name (typeName (data pv)))]
| out_array ty array :
    declares p pv shape name ty ->
    dataToArray (data pv) ty = Some array ->
    resolvedMode p pv <> "indexed" ->
    outcome p pv shape name
      [declaration p pv name ty;
       call_dataToArray (data pv) ty;
       call_AiNodeSetArray name (Some array)]
| out_indexed ty array indices :
    declares p pv shape name ty ->
    dataToArray (data pv) ty = Some array ->
    resolvedMode p pv = "indexed" ->
    outcome p pv shape name
      [declaration p pv name ty;
       call_dataToArray (data pv) ty;
       call_AiNodeSetArray name (Some array);
       call_AiArrayAllocate (nelements array) 1 AI_TYPE_UINT;
       call_AiNodeSetArray (name +:+ "idxs") (Some indices)].

End Outcomes.

(** ** Lookup facts *)

Lemma variableData_any {T : Type} (cast : Data -> option T) p name :
  variableData cast p name Invalid = pv ← variables p !! name; cast (data pv).
Proof.
  unfold variableData. destruct (variables p !! name) as [pv|]; [|done].
  rewrite bool_decide_false by (intros ne; by apply ne). done.
Qed.

Lemma variableData_required {T : Type} (cast : Data -> option T) p name i :
  i <> Invalid ->
  variableData cast p name i =
    pv ← variables p !! name;
    if bool_decide (interpolation pv = i) then cast (data pv) else None.
Proof.
  intros Hi. unfold variableData.
  destruct (variables p !! name) as [pv|]; [|done].
  rewrite bool_decide_true by done. cbn. by case_bool_decide.
Qed.

Lemma variableData_perElement p name :
  match variableData castFloatVectorData p name Invalid with
  | Some v => perElement p name v
  | None => noPerElement p name
  end.
Proof.
  rewrite variableData_any. unfold noPerElement, perElement.
  destruct (variables p !! name) as [[i d]|]; cbn.
  - destruct d; cbn; try (intros w [j Hj]; congruence). by exists i.
  - intros w [j Hj]. congruence.
Qed.

Lemma variableData_constantFloat p name :
  match variableData castFloatData p name Constant with
  | Some c => constantFloat p name c
  | None => noConstantFloat p name
  end.
Proof.
  rewrite variableData_required by done. unfold noConstantFloat, constantFloat.
  destruct (variables p !! name) as [[i d]|]; cbn; [|congruence].
  case_bool_decide; subst; destruct d; cbn; congruence.
Qed.

Lemma derives_radius p : derives p (radius p).
Proof.
  unfold radius.
  pose proof (variableData_perElement p "radius") as R.
  destruct (variableData castFloatVectorData p "radius" Invalid) as [r|];
    [by apply from_radius|].
  pose proof (variableData_constantFloat p "radius") as CR.
  destruct (variableData castFloatData p "radius" Constant) as [c|];
    [by apply from_constant_radius|].
  pose proof (variableData_perElement p "width") as W.
  destruct (variableData castFloatVectorData p "width" Invalid) as [w|];
    [by apply from_width|].
  pose proof (variableData_constantFloat p "width") as CW.
  destruct (variableData castFloatData p "width" Constant) as [c|];
    [by apply from_constant_width|].
  pose proof (variableData_constantFloat p "constantwidth") as CA.
  destruct (variableData castFloatData p "constantwidth" Constant) as [c|];
    [by apply from_constantwidth | by apply from_default].
Qed.

Lemma perElement_fun p name v w : perElement p name v -> perElement p name w -> v = w.
Proof. intros [i Hi] [j Hj]. congruence. Qed.

Lemma constantFloat_fun p name c d : constantFloat p name c -> constantFloat p name d -> c = d.
Proof. unfold constantFloat. congruence. Qed.

(** An earlier source that is present contradicts a later rule. *)
Ltac earlier_source :=
  match goal with
  | N : noPerElement ?p ?n, E : perElement ?p ?n ?v |- _ =>
      exfalso; exact (N v E)
  | N : noConstantFloat ?p ?n, E : constantFloat ?p ?n ?c |- _ =>
      exfalso; exact (N c E)
  end.

Ltac same_source :=
  match goal with
  | A : perElement ?p ?n ?v, B : perElement ?p ?n ?w |- _ =>
      pose proof (perElement_fun p n v w A B); subst; clear B
  | A : constantFloat ?p ?n ?v, B : constantFloat ?p ?n ?w |- _ =>
      pose proof (constantFloat_fun p n v w A B); subst; clear B
  end.

Lemma derives_fun p r s : derives p r -> derives p s -> r = s.
Proof.
  intros Hr Hs; destruct Hr; destruct Hs;
    try earlier_source; repeat same_source; reflexivity.
Qed.

(** C1, amended: the radius is derived in the order per-element radius,
    constant radius, per-element width (each element halved), constant
    width, then its alias "constantwidth" (halved), then the default 0.5:
    [radius] returns [r] exactly when [r] comes from the first of these
    sources that the primitive has. *)
Theorem radius_precedence (p : Primitive) (r : list float32) :
  derives p r <-> radius p = r.
Proof.
  split.
  - intros D. exact (derives_fun p _ _ (derives_radius p) D).
  - intros <-. apply derives_radius.
Qed.

Lemma radius_precedence_witness :
  noPerElement Examples.radiusAndWidth "radius"
  /\ constantFloat Examples.radiusAndWidth "radius" three
  /\ perElement Examples.radiusAndWidth "width" [two; four]
  /\ radius Examples.radiusAndWidth = [three].
Proof.
  assert (N : noPerElement Examples.radiusAndWidth "radius").
  { intros v [i Hi]. vm_compute in Hi. discriminate. }
  assert (C : constantFloat Examples.radiusAndWidth "radius" three)
    by reflexivity.
  split; [exact N|]. split; [exact C|]. split; [by exists Vertex|].
  apply (proj1 (radius_precedence Examples.radiusAndWidth [three])).
  apply from_constant_radius; [exact N | exact C].
Defined.

(** C1 as stated fails: with a constant radius 3 and per-element widths
    2 and 4, and no per-element radius, the stated order halves the widths
    where the code returns the constant radius. *)
Lemma radius_not_in_stated_order :
  variableData castFloatVectorData Examples.radiusAndWidth "radius" Invalid = None
  /\ radius Examples.radiusAndWidth = [three]
  /\ radiusInStatedOrder Examples.radiusAndWidth = [one; two]
  /\ radius Examples.radiusAndWidth <> radiusInStatedOrder Examples.radiusAndWidth.
Proof. repeat split; try reflexivity. vm_compute. discriminate. Qed.

(** C6, amended: the derived radius has at least one element except when
    it is an empty per-element radius, or, with no radius attribute to
    use, the halved copy of an empty per-element width.  Branch by branch:
    a per-element radius gives as many elements as the attribute holds; a
    per-element width, used when there is no radius attribute to use,
    gives as many as the width holds; the constant radius, constant width,
    alias and default branches give exactly one element. *)
Theorem radius_nonempty (p : Primitive) :
  (radius p <> [] <-> ~ emptySource p)
  /\ (forall r, perElement p "radius" r -> length (radius p) = length r)
  /\ (forall w,
        noPerElement p "radius" -> noConstantFloat p "radius" ->
        perElement p "width" w ->
        length (radius p) = length w)
  /\ (noPerElement p "radius" ->
      (exists c, constantFloat p "radius" c) \/ noPerElement p "width" ->
      length (radius p) = 1%nat).
Proof.
  pose proof (derives_radius p) as D. unfold emptySource.
  split; [split|].
  - intros Hne [E | (NR & NC & E)]; apply Hne.
    + exact (derives_fun p _ _ D (from_radius p [] E)).
    + exact (derives_fun p _ _ D (from_width p [] NR NC E)).
  - intros Hsrc Hempty. rewrite Hempty in D. apply Hsrc.
    inversion D as [r E | | w NR NC E Hw | | |]; subst.
    + by left.
    + right. destruct w; [done | discriminate].
  - split; [|split].
    + intros r E. by rewrite (derives_fun p _ _ D (from_radius p r E)).
    + intros w NR NC E.
      rewrite (derives_fun p _ _ D (from_width p w NR NC E)).
      unfold halved. apply length_fmap.
    + intros NR Hsrc.
      inversion D as [r E | | w NR' NC E Hw | | |]; try reflexivity.
      * exfalso. exact (NR _ E).
      * exfalso.
        destruct Hsrc as [[c Hc] | NW]; [exact (NC c Hc) | exact (NW w E)].
Qed.

Lemma radius_nonempty_witness :
  ~ emptySource Examples.radiusAndWidth
  /\ radius Examples.radiusAndWidth <> []
  /\ length (radius Examples.radiusAndWidth) = 1%nat
  /\ length (radius Examples.widthsOnly) = 2%nat
  /\ length (radius Examples.emptyRadius) = 0%nat.
Proof.
  assert (N : ~ emptySource Examples.radiusAndWidth).
  { intros [[i Hi] | (_ & _ & [i Hi])]; vm_compute in Hi; discriminate. }
  assert (NR : noPerElement Examples.radiusAndWidth "radius")
    by (intros v [i Hi]; vm_compute in Hi; discriminate).
  assert (NRw : noPerElement Examples.widthsOnly "radius")
    by (intros v [i Hi]; vm_compute in Hi; discriminate).
  assert (NCw : noConstantFloat Examples.widthsOnly "radius")
    by (intros c Hc; vm_compute in Hc; discriminate).
  split; [exact N|].
  split; [exact (proj2 (proj1 (radius_nonempty Examples.radiusAndWidth)) N)|].
  split.
  - apply (proj2 (proj2 (proj2 (radius_nonempty Examples.radiusAndWidth))) NR).
    left. by exists three.
  - split.
    + apply (proj1 (proj2 (proj2 (radius_nonempty Examples.widthsOnly)))
               [two; four] NRw NCw).
      by exists Vertex.
    + apply (proj1 (proj2 (radius_nonempty Examples.emptyRadius)) []).
      by exists Vertex.
Defined.

(** C6 as stated fails: a per-element radius attribute with no element
    is returned as it is. *)
Lemma radius_empty :
  perElement Examples.emptyRadius "radius" []
  /\ radius Examples.emptyRadius = []
  /\ ~ (1 <= length (radius Examples.emptyRadius))%nat.
Proof.
  split; [by exists Vertex|]. split; [reflexivity|].
  vm_compute. lia.
Qed.

(** ** Single-attribute conversion *)

Section ConvertPrimitiveVariable.

Context `{Collaborators}.

Lemma bind_call {B : Type} (c : Call) (k : unit -> M B) (t : Trace) :
  (call c ≫= k) t = k () (t ++ [c]).
Proof. reflexivity. Qed.

Lemma pointsOverride_other p mode :
  mode <> "uniform" -> mode <> "varying" -> pointsOverride p mode = mode.
Proof.
  intros Hu Hv. unfold pointsOverride.
  destruct (isInstanceOf p PointsPrimitiveTypeId); [|done].
  apply String.eqb_neq in Hu, Hv. by rewrite Hu, Hv.
Qed.

Lemma pointsOverride_not_points p mode :
  isInstanceOf p PointsPrimitiveTypeId = false -> pointsOverride p mode = mode.
Proof. intros Hp. unfold pointsOverride. by rewrite Hp. Qed.

Lemma mesh_not_points p :
  isInstanceOf p MeshPrimitiveTypeId = true ->
  isInstanceOf p PointsPrimitiveTypeId = false.
Proof.
  unfold isInstanceOf. intros Hm. apply bool_decide_eq_true in Hm.
  apply bool_decide_eq_false. congruence.
Qed.

(** *** The identity indices *)

Lemma uint32_small (i : Z) : 0 <= i < 2 ^ 32 -> to_uint32 i = i.
Proof. intros Hi. unfold to_uint32. by apply Z.mod_small. Qed.

Lemma uint32_of_int32 (i : Z) : 0 <= i < 2 ^ 32 -> to_uint32 (to_int32 i) = i.
Proof.
  intros Hi. unfold to_uint32, to_int32.
  rewrite Zminus_mod_idemp_l.
  replace (i + 2 ^ 31 - 2 ^ 31) with i by lia.
  by apply Z.mod_small.
Qed.

(** After [k] turns of the loop the first [k] slots hold their own
    index, and the others are untouched. *)
Lemma identity_prefix (n k : nat) (N K T : Z) :
  (k <= n)%nat ->
  Z.of_nat n <= 2 ^ 32 ->
  foldl (fun result i => AiArraySetInt result i i)
        (mkAtArray (replicate n (AtUInt 0)) N K T) (seqZ 0 (Z.of_nat k))
  = mkAtArray ((AtUInt <$> seqZ 0 (Z.of_nat k)) ++ replicate (n - k) (AtUInt 0))
              N K T.
Proof.
  intros Hk Hn. induction k as [|k IH].
  - cbn. by rewrite Nat.sub_0_r.
  - rewrite seqZ_S, foldl_snoc, IH by lia.
    unfold AiArraySetInt; cbn [elements nelements nkeys type].
    rewrite Z.add_0_l, uint32_of_int32, uint32_small, Nat2Z.id by lia.
    f_equal.
    rewrite insert_app_r_alt by (rewrite length_fmap, length_seqZ; lia).
    rewrite length_fmap, length_seqZ, Nat2Z.id, Nat.sub_diag.
    replace (n - k)%nat with (S (n - S k)) by lia.
    cbn. by rewrite fmap_snoc, <- app_assoc.
Qed.

Lemma identityIndices_run (size : Z) (t : Trace) :
  0 <= size < 2 ^ 32 ->
  identityIndices size t
  = (Ok (mkAtArray (AtUInt <$> seqZ 0 size) size 1 AI_TYPE_UINT),
     t ++ [call_AiArrayAllocate size 1 AI_TYPE_UINT]).
Proof.
  intros Hs. unfold identityIndices, AiArrayAllocate.
  cbv beta iota delta [mbind M_bind call mret M_ret]. f_equal. f_equal.
  rewrite uint32_small, Z.mul_1_r by done.
  pose proof (identity_prefix (Z.to_nat size) (Z.to_nat size) size 1 AI_TYPE_UINT)
    as Hfill.
  rewrite Z2Nat.id in Hfill by lia. rewrite Hfill by lia.
  by rewrite Nat.sub_diag, app_nil_r.
Qed.

(** The three ways through [convertPrimitiveVariable] when the name does
    not clash. *)
Lemma convert_unsupported p pv shape name t :
  noClash shape name ->
  interpolationSwitch p pv = EmptyString ->
  convertPrimitiveVariable p pv shape name t
  = (Ok (), t ++ [call_msg Warning context (unsupportedInterpolationMessage name)]).
Proof.
  intros Hclash Hsw. unfold convertPrimitiveVariable. by rewrite Hclash, Hsw.
Qed.

Lemma convert_constant p pv shape name t :
  noClash shape name ->
  interpolationSwitch p pv <> EmptyString ->
  resolvedMode p pv = "constant" ->
  convertPrimitiveVariable p pv shape name t
  = (Ok (), t ++ [call_setParameter name (data pv)]).
Proof.
  intros Hclash Hsw Hmode. unfold convertPrimitiveVariable.
  unfold resolvedMode in Hmode. apply String.eqb_neq in Hsw.
  by rewrite Hclash, Hsw, Hmode.
Qed.

Lemma convert_array p pv shape name type t :
  noClash shape name ->
  interpolationSwitch p pv <> EmptyString ->
  resolvedMode p pv <> "constant" ->
  parameterType (data pv) = (type, true) ->
  type <> AI_TYPE_NONE ->
  convertPrimitiveVariable p pv shape name t
  = afterArray (resolvedMode p pv) name pv type
      (t ++ [call_AiNodeDeclare name
               (resolvedMode p pv +:+ " " +:+ AiParamGetTypeName type);
             call_dataToArray (data pv) type]).
Proof.
  intros Hclash Hsw Hmode Htype Hnone. unfold convertPrimitiveVariable.
  unfold resolvedMode in *. apply String.eqb_neq in Hsw, Hmode.
  rewrite Hclash, Hsw, Hmode, Htype.
  apply Z.eqb_neq in Hnone. rewrite Hnone. cbn.
  rewrite !bind_call, <- app_assoc. reflexivity.
Qed.

(** C7: a [Constant] attribute that clashes with no built-in parameter is
    converted by one call of [ParameterAlgo::setParameter] and nothing
    else: no declaration, no array built, no array or "idxs" array set. *)
Theorem constant_sets_parameter_only
    (p : Primitive) (pv : PrimitiveVariable) (shape : AtNode) (name : string)
    (t : Trace) :
  noClash shape name ->
  interpolation pv = Constant ->
  convertPrimitiveVariable p pv shape name t
  = (Ok (), t ++ [call_setParameter name (data pv)]).
Proof.
  intros Hclash Hconst.
  assert (Hsw : interpolationSwitch p pv = "constant")
    by (unfold interpolationSwitch; by rewrite Hconst).
  apply convert_constant; [done | by rewrite Hsw |].
  unfold resolvedMode. rewrite Hsw. by apply pointsOverride_other.
Qed.

(** *** After the array construction *)

Lemma afterArray_null mode name pv type t :
  dataToArray (data pv) type = None ->
  afterArray mode name pv type t
  = (Ok (), t ++ [call_msg Warning context
                    (failedArrayMessage name (typeName (data pv)))]).
Proof. intros Hnull. unfold afterArray. by rewrite Hnull. Qed.

Lemma afterArray_plain mode name pv type array t :
  mode <> "indexed" ->
  dataToArray (data pv) type = Some array ->
  afterArray mode name pv type t
  = (Ok (), t ++ [call_AiNodeSetArray name (Some array)]).
Proof.
  intros Hmode Harray. unfold afterArray. rewrite Harray, bind_call.
  apply String.eqb_neq in Hmode. by rewrite Hmode.
Qed.

Lemma afterArray_indexed name pv type array t :
  dataToArray (data pv) type = Some array ->
  0 <= nelements array < 2 ^ 32 ->
  afterArray "indexed" name pv type t
  = (Ok (),
     t ++ [call_AiNodeSetArray name (Some array);
           call_AiArrayAllocate (nelements array) 1 AI_TYPE_UINT;
           call_AiNodeSetArray (name +:+ "idxs")
             (Some (mkAtArray (AtUInt <$> seqZ 0 (nelements array))
                              (nelements array) 1 AI_TYPE_UINT))]).
Proof.
  intros Harray Hrange. unfold afterArray. rewrite Harray, bind_call.
  cbn [String.eqb Ascii.eqb Bool.eqb].
  cbv beta iota delta [mbind M_bind].
  rewrite identityIndices_run by done.
  unfold call. by rewrite <- !app_assoc.
Qed.

(** *** The switch *)

Lemma vertexCase_varying p pv :
  vertexCase p pv = "varying"
  <-> variableSize p (interpolation pv) = variableSize p Varying.
Proof.
  unfold vertexCase.
  destruct (Z.eqb_spec (variableSize p (interpolation pv)) (variableSize p Varying));
    split; intros; done.
Qed.

Lemma vertexCase_empty p pv :
  variableSize p (interpolation pv) <> variableSize p Varying ->
  vertexCase p pv = EmptyString.
Proof. intros Hne. unfold vertexCase. apply Z.eqb_neq in Hne. by rewrite Hne. Qed.

Lemma vertexCase_not_indexed p pv : vertexCase p pv <> "indexed".
Proof. unfold vertexCase. by destruct (_ =? _). Qed.

Lemma switch_vertex_rule p pv :
  interpolation pv = Vertex
  \/ (interpolation pv = FaceVarying
      /\ isInstanceOf p MeshPrimitiveTypeId = false) ->
  interpolationSwitch p pv = vertexCase p pv.
Proof.
  unfold interpolationSwitch. intros [Hi | [Hi Hmesh]]; rewrite Hi; [done|].
  by rewrite Hmesh.
Qed.

(** C2: the switch sends [Constant], [Uniform] and [Varying] to
    "constant", "uniform" and "varying"; [FaceVarying] to "indexed" exactly
    on a mesh; [Vertex], and [FaceVarying] off a mesh, to "varying" exactly
    when [variableSize] of the attribute's interpolation equals that of
    [Varying]; otherwise nothing is assigned, and the conversion (of a name
    that clashes with no built-in) is one "unsupported interpolation"
    warning and nothing else. *)
Theorem interpolation_mapping (p : Primitive) (pv : PrimitiveVariable) :
  (interpolation pv = Constant -> interpolationSwitch p pv = "constant")
  /\ (interpolation pv = Uniform -> interpolationSwitch p pv = "uniform")
  /\ (interpolation pv = Varying -> interpolationSwitch p pv = "varying")
  /\ (interpolation pv = FaceVarying ->
      (interpolationSwitch p pv = "indexed"
       <-> isInstanceOf p MeshPrimitiveTypeId = true))
  /\ (interpolation pv = Vertex
      \/ (interpolation pv = FaceVarying
          /\ isInstanceOf p MeshPrimitiveTypeId = false) ->
      (interpolationSwitch p pv = "varying"
       <-> variableSize p (interpolation pv) = variableSize p Varying)
      /\ (variableSize p (interpolation pv) <> variableSize p Varying ->
          interpolationSwitch p pv = EmptyString
          /\ forall shape name t,
               noClash shape name ->
               convertPrimitiveVariable p pv shape name t
               = (Ok (), t ++ [call_msg Warning context
                                 (unsupportedInterpolationMessage name)]))).
Proof.
  split; [intros Hi; unfold interpolationSwitch; by rewrite Hi|].
  split; [intros Hi; unfold interpolationSwitch; by rewrite Hi|].
  split; [intros Hi; unfold interpolationSwitch; by rewrite Hi|].
  split.
  - intros Hi. unfold interpolationSwitch. rewrite Hi.
    destruct (isInstanceOf p MeshPrimitiveTypeId); split; try done.
    intros Hv. by apply vertexCase_not_indexed in Hv.
  - intros Hrule. rewrite (switch_vertex_rule p pv Hrule).
    split; [apply vertexCase_varying|].
    intros Hne. split; [by apply vertexCase_empty|].
    intros shape name t Hclash. apply convert_unsupported; [done|].
    rewrite (switch_vertex_rule p pv Hrule). by apply vertexCase_empty.
Qed.

(** *** The points override *)

Lemma pointsOverride_uniform p :
  isInstanceOf p PointsPrimitiveTypeId = true ->
  pointsOverride p "uniform" = "constant".
Proof. intros Hp. unfold pointsOverride. by rewrite Hp. Qed.

Lemma pointsOverride_varying p :
  isInstanceOf p PointsPrimitiveTypeId = true ->
  pointsOverride p "varying" = "uniform".
Proof. intros Hp. unfold pointsOverride. by rewrite Hp. Qed.

(** C4: on a points primitive the mode "uniform" becomes "constant" and
    "varying" becomes "uniform", and every other mode stays; so a
    [Uniform] attribute is converted as a constant, by one
    [setParameter], and a [Varying] attribute is declared "uniform". *)
Theorem points_override (p : Primitive) (pv : PrimitiveVariable) :
  isInstanceOf p PointsPrimitiveTypeId = true ->
  pointsOverride p "uniform" = "constant"
  /\ pointsOverride p "varying" = "uniform"
  /\ (forall mode,
        mode <> "uniform" -> mode <> "varying" -> pointsOverride p mode = mode)
  /\ (interpolation pv = Uniform ->
      resolvedMode p pv = "constant"
      /\ forall shape name t,
           noClash shape name ->
           convertPrimitiveVariable p pv shape name t
           = (Ok (), t ++ [call_setParameter name (data pv)]))
  /\ (interpolation pv = Varying ->
      resolvedMode p pv = "uniform"
      /\ forall shape name type t,
           noClash shape name ->
           parameterType (data pv) = (type, true) ->
           type <> AI_TYPE_NONE ->
           convertPrimitiveVariable p pv shape name t
           = (Ok (),
              t ++ [call_AiNodeDeclare name
                      ("uniform" +:+ " " +:+ AiParamGetTypeName type);
                    call_dataToArray (data pv) type;
                    match dataToArray (data pv) type with
                    | Some array => call_AiNodeSetArray name (Some array)
                    | None =>
                        call_msg Warning context
                          (failedArrayMessage name (typeName (data pv)))
                    end])).
Proof.
  intros Hpoints.
  split; [by apply pointsOverride_uniform|].
  split; [by apply pointsOverride_varying|].
  split; [intros mode; apply pointsOverride_other|].
  split.
  - intros Hi.
    assert (Hsw : interpolationSwitch p pv = "uniform")
      by (unfold interpolationSwitch; by rewrite Hi).
    assert (Hmode : resolvedMode p pv = "constant")
      by (unfold resolvedMode; rewrite Hsw; by apply pointsOverride_uniform).
    split; [done|]. intros shape name t Hclash.
    apply convert_constant; [done | by rewrite Hsw | done].
  - intros Hi.
    assert (Hsw : interpolationSwitch p pv = "varying")
      by (unfold interpolationSwitch; by rewrite Hi).
    assert (Hmode : resolvedMode p pv = "uniform")
      by (unfold resolvedMode; rewrite Hsw; by apply pointsOverride_varying).
    split; [done|]. intros shape name type t Hclash Htype Hnone.
    rewrite (convert_array p pv shape name type t Hclash); try done;
      [| by rewrite Hsw | by rewrite Hmode].
    rewrite Hmode.
    destruct (dataToArray (data pv) type) as [array|] eqn:Harray.
    + rewrite (afterArray_plain _ _ _ _ array) by done.
      by rewrite <- app_assoc.
    + rewrite afterArray_null by done. by rewrite <- app_assoc.
Qed.

(** C8: once the parameter is declared, a null array from
    [ParameterAlgo::dataToArray] leads to one "Failed to create array"
    warning and to no other call: the declaration stays the only write to
    the node, and neither the array nor an "idxs" array is set. *)
Theorem null_array_warns
    (p : Primitive) (pv : PrimitiveVariable) (shape : AtNode) (name : string)
    (type : Z) (t : Trace) :
  noClash shape name ->
  interpolationSwitch p pv <> EmptyString ->
  resolvedMode p pv <> "constant" ->
  parameterType (data pv) = (type, true) ->
  type <> AI_TYPE_NONE ->
  dataToArray (data pv) type = None ->
  let declaration :=
    call_AiNodeDeclare name
      (resolvedMode p pv +:+ " " +:+ AiParamGetTypeName type) in
  let warning :=
    call_msg Warning context (failedArrayMessage name (typeName (data pv))) in
  let made := [declaration; call_dataToArray (data pv) type; warning] in
  convertPrimitiveVariable p pv shape name t = (Ok (), t ++ made)
  /\ List.filter isWarning made = [warning]
  /\ List.filter mutatesNode made = [declaration].
Proof.
  intros Hclash Hsw Hmode Htype Hnone Hnull. cbn zeta.
  split; [|by split].
  rewrite (convert_array p pv shape name type t) by done.
  rewrite afterArray_null by done. by rewrite <- app_assoc.
Qed.

(** C5: a [FaceVarying] attribute on a mesh is declared "indexed", and
    when its array is built the array is set and then a second one, under
    the name with "idxs" appended: as many elements as the first has, each
    equal to its own position, 0, 1, ... *)
Theorem indexed_identity_indices
    (p : Primitive) (pv : PrimitiveVariable) (shape : AtNode) (name : string)
    (aiType : Z) (array : AtArray) (t : Trace) :
  noClash shape name ->
  interpolation pv = FaceVarying ->
  isInstanceOf p MeshPrimitiveTypeId = true ->
  parameterType (data pv) = (aiType, true) ->
  aiType <> AI_TYPE_NONE ->
  dataToArray (data pv) aiType = Some array ->
  0 <= nelements array < 2 ^ 32 ->
  exists indices : AtArray,
    convertPrimitiveVariable p pv shape name t
    = (Ok (),
       t ++ [call_AiNodeDeclare name
               ("indexed" +:+ " " +:+ AiParamGetTypeName aiType);
             call_dataToArray (data pv) aiType;
             call_AiNodeSetArray name (Some array);
             call_AiArrayAllocate (nelements array) 1 AI_TYPE_UINT;
             call_AiNodeSetArray (name +:+ "idxs") (Some indices)])
    /\ nelements indices = nelements array
    /\ length (elements indices) = Z.to_nat (nelements array)
    /\ elements indices = AtUInt <$> seqZ 0 (nelements array)
    /\ type indices = AI_TYPE_UINT.
Proof.
  intros Hclash Hi Hmesh Htype Hnone Harray Hrange.
  assert (Hsw : interpolationSwitch p pv = "indexed")
    by (unfold interpolationSwitch; by rewrite Hi, Hmesh).
  assert (Hmode : resolvedMode p pv = "indexed").
  { unfold resolvedMode. rewrite Hsw.
    by apply pointsOverride_not_points, mesh_not_points. }
  eexists. split.
  - rewrite (convert_array p pv shape name aiType t Hclash); try done;
      [| by rewrite Hsw | by rewrite Hmode].
    rewrite Hmode, (afterArray_indexed _ _ _ array) by done.
    rewrite <- app_assoc. reflexivity.
  - cbn. rewrite length_fmap, length_seqZ. done.
Qed.

End ConvertPrimitiveVariable.

(** ** Positions *)

Section ConvertP.

Context `{Collaborators}.

Lemma variableData_P p :
  match variableData castV3fVectorData p "P" Vertex with
  | Some v => hasP p
  | None => ~ hasP p
  end.
Proof.
  rewrite variableData_required by done. unfold hasP.
  destruct (variables p !! "P") as [[i d]|]; cbn.
  - case_bool_decide; subst; destruct d; cbn; try (intros [w Hw]; congruence).
    by eexists.
  - intros [w Hw]. congruence.
Qed.

Lemma convertP_cases p shape name t :
  (~ hasP p /\ convertP p shape name t = (Throw missingP, t))
  \/ (hasP p /\ failed (convertP p shape name t).1 = false).
Proof.
  pose proof (variableData_P p) as HP. unfold convertP.
  destruct (variableData castV3fVectorData p "P" Vertex) as [v|].
  - right. by split.
  - left. by split.
Qed.

(** The loop of lines 133-141 either throws, leaving the trace as it
    was, at a sample without "P", or collects the data of every sample. *)
Lemma collectP_cases samples : forall dataSamples t,
  ((exists s, s ∈ samples /\ ~ hasP s)
   /\ collectP samples dataSamples t = (Throw missingP, t))
  \/ ((forall s, s ∈ samples -> hasP s)
      /\ exists collected, collectP samples dataSamples t = (Ok collected, t)).
Proof.
  induction samples as [|it rest IH]; intros dataSamples t.
  - right. split; [intros s Hs; by apply elem_of_nil in Hs | by eexists].
  - cbn [collectP]. pose proof (variableData_P it) as HP.
    destruct (variableData castV3fVectorData it "P" Vertex) as [v|].
    + destruct (IH (dataSamples ++ [V3fVectorData v]) t)
        as [[(s & Hs & Hno) Hrun] | [Hall Hrun]].
      * left. split; [|done]. exists s. split; [by apply elem_of_cons; right | done].
      * right. split; [|done]. intros s Hs.
        apply elem_of_cons in Hs as [-> | Hs]; [done | by apply Hall].
    + left. split; [|done]. exists it. split; [by apply elem_of_cons; left | done].
Qed.

Lemma convertPSamples_cases samples shape name t :
  ((exists s, s ∈ samples /\ ~ hasP s)
   /\ convertPSamples samples shape name t = (Throw missingP, t))
  \/ ((forall s, s ∈ samples -> hasP s)
      /\ failed (convertPSamples samples shape name t).1 = false).
Proof.
  unfold convertPSamples. cbv beta iota delta [mbind M_bind].
  destruct (collectP_cases samples [] t) as [[Hex Hrun] | [Hall [ds Hrun]]];
    rewrite Hrun; [by left | by right].
Qed.

(** C3: converting the position of one primitive, or of a list of motion
    samples, throws exactly when a sample has no [V3fVectorData] "P" with
    [Vertex] interpolation, and then no call at all has been made: the
    trace is the one the conversion started from. *)
Theorem convertP_fails_without_writes
    (p : Primitive) (samples : list Primitive) (shape : AtNode) (name : string)
    (t : Trace) :
  (failed (convertP p shape name t).1 = true <-> ~ hasP p)
  /\ (~ hasP p -> convertP p shape name t = (Throw missingP, t))
  /\ (failed (convertPSamples samples shape name t).1 = true
      <-> exists s, s ∈ samples /\ ~ hasP s)
  /\ ((exists s, s ∈ samples /\ ~ hasP s) ->
      convertPSamples samples shape name t = (Throw missingP, t)).
Proof.
  destruct (convertP_cases p shape name t) as [[Hno Hrun] | [Hyes Hrun]];
    destruct (convertPSamples_cases samples shape name t)
      as [[Hex Hruns] | [Hall Hruns]].
  all: repeat split; try done.
  all: try (by rewrite Hrun).
  all: try (by rewrite Hruns).
  all: try (intros [s [Hs Hno']]; exfalso; by apply Hno', Hall).
  all: try (rewrite Hrun; done).
  all: try (rewrite Hruns; done).
Qed.

End ConvertP.

(** ** Bulk conversion *)

Section Bulk.

Lemma skipLoop_elem_of first n : skipLoop first n = true <-> first ∈ n.
Proof.
  induction n as [|n0 rest IH]; cbn.
  - split; [done | intros Hin; by apply elem_of_nil in Hin].
  - rewrite elem_of_cons. destruct (String.eqb_spec first n0) as [-> | Hne].
    + split; [by left | done].
    + rewrite IH. split; [by right | by intros [? | ?]].
Qed.

Lemma variablesLoop_forEach body namesToIgnore its :
  variablesLoop body namesToIgnore its
  = forEach body (filter (fun it => it.1 ∉ ignored namesToIgnore) its).
Proof.
  induction its as [|it rest IH]; [done|].
  cbn [variablesLoop].
  destruct namesToIgnore as [n|]; cbn [ignored].
  - destruct (skipLoop it.1 n) eqn:Hskip.
    + rewrite filter_cons_False; [done|].
      intros Hnot. by apply Hnot, skipLoop_elem_of.
    + rewrite filter_cons_True.
      * cbn [forEach foldr]. by rewrite IH.
      * intros Hin. apply skipLoop_elem_of in Hin. congruence.
  - rewrite filter_cons_True by apply not_elem_of_nil.
    cbn [forEach foldr]. by rewrite IH.
Qed.

Lemma iterate_elem_of m n pv : (n, pv) ∈ iterate m <-> m !! n = Some pv.
Proof.
  unfold iterate. rewrite merge_sort_Permutation. apply elem_of_map_to_list.
Qed.

Lemma iterate_NoDup m : NoDup (iterate m).*1.
Proof.
  unfold iterate. rewrite merge_sort_Permutation. apply NoDup_fst_map_to_list.
Qed.

Lemma times_absent n l : n ∉ l.*1 -> times n l = 0%nat.
Proof.
  unfold times. induction l as [|[k v] l IH]; [done|].
  rewrite fmap_cons, not_elem_of_cons. cbn [fst]. intros [Hne Hnot].
  rewrite filter_cons_False by (cbn; intros Heq; by subst). by apply IH.
Qed.

Lemma times_present n pv l : NoDup l.*1 -> (n, pv) ∈ l -> times n l = 1%nat.
Proof.
  induction l as [|[k v] l IH]; [intros _ Hin; by apply elem_of_nil in Hin|].
  rewrite fmap_cons, NoDup_cons, elem_of_cons. cbn [fst].
  intros [Hk Hnd] [Heq | Hin].
  - inversion Heq; subst. unfold times.
    rewrite filter_cons_True by done. cbn [length]. f_equal.
    by apply times_absent.
  - assert (n <> k).
    { intros ->. apply Hk. by apply (list_elem_of_fmap_2 fst _ (k, pv)). }
    unfold times in *.
    rewrite filter_cons_False by (cbn; intros Heq; by subst).
    by apply IH.
Qed.

Lemma invoked_NoDup namesToIgnore p : NoDup (invoked namesToIgnore p).*1.
Proof.
  unfold invoked. eapply sublist_NoDup; [apply iterate_NoDup|].
  apply fmap_sublist, sublist_filter.
Qed.

(** C9: the loop calls the single-attribute conversion on the attributes
    whose name is not among the names to ignore, in the order of the map
    and on nothing else; so never for a name to ignore, and exactly once
    for every other attribute of the primitive.  This holds whatever the
    body of the loop does, and so for [convertPrimitiveVariable]. *)
Theorem bulk_conversion_exclusion `{Collaborators}
    (p : Primitive) (shape : AtNode) (namesToIgnore : option (list string)) :
  (forall body,
     variablesLoop body namesToIgnore (iterate (variables p))
     = forEach body (invoked namesToIgnore p))
  /\ convertPrimitiveVariables p shape namesToIgnore
     = forEach (fun second first => convertPrimitiveVariable p second shape first)
               (invoked namesToIgnore p)
  /\ (forall n, n ∈ ignored namesToIgnore ->
        times n (invoked namesToIgnore p) = 0%nat)
  /\ (forall n pv,
        variables p !! n = Some pv ->
        n ∉ ignored namesToIgnore ->
        times n (invoked namesToIgnore p) = 1%nat
        /\ (n, pv) ∈ invoked namesToIgnore p).
Proof.
  split; [intros body; apply variablesLoop_forEach|].
  split; [apply variablesLoop_forEach|].
  split.
  - intros n Hin. apply times_absent. intros Hfst.
    apply list_elem_of_fmap in Hfst as ([k v] & -> & Hkv).
    apply list_elem_of_filter in Hkv as [Hnot _]. by apply Hnot.
  - intros n pv Hlook Hnot.
    assert (Hin : (n, pv) ∈ invoked namesToIgnore p).
    { apply list_elem_of_filter. split; [done | by apply iterate_elem_of]. }
    split; [|done].
    eapply times_present; [apply invoked_NoDup | done].
Qed.

Lemma variablesLoop_null body its :
  variablesLoop body None its = variablesLoop body (Some []) its.
Proof.
  induction its as [|it rest IH]; [done|].
  cbn [variablesLoop skipLoop]. by rewrite IH.
Qed.

Lemma variablesLoop_all body its : variablesLoop body None its = forEach body its.
Proof.
  induction its as [|it rest IH]; [done|].
  cbn [variablesLoop]. rewrite IH. reflexivity.
Qed.

(** C10: a null [namesToIgnore] is the same as an empty list of names:
    the single-attribute conversion is called on every attribute of the
    primitive, once each, and none is skipped. *)
Theorem null_names_ignore_nothing `{Collaborators}
    (p : Primitive) (shape : AtNode) :
  convertPrimitiveVariables p shape None
  = convertPrimitiveVariables p shape (Some [])
  /\ (forall body,
        variablesLoop body None (iterate (variables p))
        = forEach body (iterate (variables p)))
  /\ convertPrimitiveVariables p shape None
     = forEach (fun second first => convertPrimitiveVariable p second shape first)
               (iterate (variables p))
  /\ (forall n pv,
        variables p !! n = Some pv ->
        times n (iterate (variables p)) = 1%nat
        /\ (n, pv) ∈ iterate (variables p)).
Proof.
  split; [apply variablesLoop_null|].
  split; [intros body; apply variablesLoop_all|].
  split; [apply variablesLoop_all|].
  intros n pv Hlook.
  assert (Hin : (n, pv) ∈ iterate (variables p)) by by apply iterate_elem_of.
  split; [|done]. eapply times_present; [apply iterate_NoDup | done].
Qed.

End Bulk.

(** ** The theorems at work on the sample collaborators *)

Lemma constant_sets_parameter_only_witness :
  convertPrimitiveVariable (H := Sample.working) Examples.radiusAndWidth
    (mkPrimitiveVariable Constant (FloatData three)) Sample.polymesh "radius" []
  = (Ok (), [call_setParameter "radius" (FloatData three)]).
Proof.
  apply (constant_sets_parameter_only (H := Sample.working)
           Examples.radiusAndWidth
           (mkPrimitiveVariable Constant (FloatData three))
           Sample.polymesh "radius" []); reflexivity.
Defined.

Lemma interpolation_mapping_witness :
  convertPrimitiveVariable (H := Sample.working) Examples.cubicCurves
    Examples.perVertex Sample.polymesh "N" []
  = (Ok (), [call_msg Warning context (unsupportedInterpolationMessage "N")]).
Proof.
  pose proof (@interpolation_mapping Sample.working Examples.cubicCurves
                Examples.perVertex) as (_ & _ & _ & _ & Hvertex).
  destruct Hvertex as [_ Hskip]; [left; reflexivity|].
  destruct Hskip as [_ Hrun]; [vm_compute; discriminate|].
  apply Hrun. reflexivity.
Defined.

Lemma convertP_fails_without_writes_witness :
  convertP (H := Sample.working) Examples.radiusAndWidth Sample.polymesh "points" []
  = (Throw missingP, [])
  /\ convertPSamples (H := Sample.working)
       [Examples.radiusAndWidth; Examples.radiusAndWidth] Sample.polymesh "points" []
     = (Throw missingP, []).
Proof.
  assert (Hno : ~ hasP Examples.radiusAndWidth).
  { intros [v Hv]. vm_compute in Hv. discriminate. }
  pose proof (@convertP_fails_without_writes Sample.working
                Examples.radiusAndWidth
                [Examples.radiusAndWidth; Examples.radiusAndWidth]
                Sample.polymesh "points" []) as (_ & Hone & _ & Hmany).
  split; [by apply Hone|].
  apply Hmany. exists Examples.radiusAndWidth. split; [|done].
  apply elem_of_cons. by left.
Defined.

Lemma points_override_witness :
  convertPrimitiveVariable (H := Sample.working) Examples.radiusAndWidth
    Examples.perPrimitive Sample.polymesh "Cs" []
  = (Ok (), [call_setParameter "Cs" (FloatVectorData [one])])
  /\ resolvedMode Examples.radiusAndWidth Examples.perPoint = "uniform".
Proof.
  pose proof (@points_override Sample.working Examples.radiusAndWidth
                Examples.perPrimitive eq_refl) as (_ & _ & _ & Huniform & _).
  pose proof (@points_override Sample.working Examples.radiusAndWidth
                Examples.perPoint eq_refl) as (_ & _ & _ & _ & Hvarying).
  split.
  - destruct Huniform as [_ Hrun]; [reflexivity|]. apply Hrun. reflexivity.
  - by destruct Hvarying as [Hmode _].
Defined.

Lemma indexed_identity_indices_witness :
  exists indices : AtArray,
    convertPrimitiveVariable (H := Sample.working) Examples.triangle
      Examples.perCorner Sample.polymesh "st" []
    = (Ok (),
       [call_AiNodeDeclare "st" "indexed FLOAT";
        call_dataToArray (FloatVectorData [two; four; one]) 4;
        call_AiNodeSetArray "st"
          (Some (mkAtArray [AtFloat two; AtFloat four; AtFloat one] 3 1 4));
        call_AiArrayAllocate 3 1 2;
        call_AiNodeSetArray "stidxs" (Some indices)])
    /\ nelements indices = 3
    /\ length (elements indices) = 3%nat
    /\ elements indices = [AtUInt 0; AtUInt 1; AtUInt 2]
    /\ type indices = 2.
Proof.
  apply (@indexed_identity_indices Sample.working Examples.triangle
           Examples.perCorner Sample.polymesh "st" 4
           (mkAtArray [AtFloat two; AtFloat four; AtFloat one] 3 1 4) []);
    try reflexivity.
  - discriminate.
  - cbn. lia.
Defined.

Lemma null_array_warns_witness :
  convertPrimitiveVariable (H := Sample.failing) Examples.triangle
    Examples.perCorner Sample.polymesh "st" []
  = (Ok (),
     [call_AiNodeDeclare "st" "indexed FLOAT";
      call_dataToArray (FloatVectorData [two; four; one]) 4;
      call_msg Warning context (failedArrayMessage "st" "FloatVectorData")]).
Proof.
  apply (@null_array_warns Sample.failing Examples.triangle Examples.perCorner
           Sample.polymesh "st" 4 []); try reflexivity; discriminate.
Defined.

Lemma bulk_conversion_exclusion_witness :
  times "width" (invoked (Some ["width"; "P"]) Examples.radiusAndWidth) = 0%nat
  /\ times "radius" (invoked (Some ["width"; "P"]) Examples.radiusAndWidth) = 1%nat.
Proof.
  pose proof (@bulk_conversion_exclusion Sample.working Examples.radiusAndWidth
                Sample.polymesh (Some ["width"; "P"])) as (_ & _ & Hnever & Honce).
  split.
  - apply Hnever. apply elem_of_cons. by left.
  - apply (Honce "radius" (mkPrimitiveVariable Constant (FloatData three)));
      [reflexivity|].
    intros Hin. vm_compute in Hin. by repeat (apply elem_of_cons in Hin as [? | Hin];
      [discriminate|]); apply elem_of_nil in Hin.
Defined.

Lemma null_names_ignore_nothing_witness :
  times "width" (iterate (variables Examples.radiusAndWidth)) = 1%nat
  /\ ("width", mkPrimitiveVariable Vertex (FloatVectorData [two; four]))
     ∈ iterate (variables Examples.radiusAndWidth).
Proof.
  pose proof (@null_names_ignore_nothing Sample.working Examples.radiusAndWidth
                Sample.polymesh) as (_ & _ & _ & Honce).
  apply Honce. reflexivity.
Defined.

(** ** More on the radius *)

(** X1: with no radius attribute to use, per-element widths give one
    radius per width, each the half of its width. *)
Theorem radius_from_width_pointwise (p : Primitive) (w : list float32) :
  noPerElement p "radius" ->
  noConstantFloat p "radius" ->
  perElement p "width" w ->
  length (radius p) = length w
  /\ forall i : nat, radius p !! i = (fun x => div x two) <$> (w !! i).
Proof.
  intros NR NC W.
  rewrite (derives_fun p _ _ (derives_radius p) (from_width p w NR NC W)).
  unfold halved. split; [apply length_fmap | intros i; apply list_lookup_fmap].
Qed.

Lemma radius_from_width_pointwise_witness :
  length (radius Examples.widthsOnly) = 2%nat
  /\ radius Examples.widthsOnly !! 1%nat = Some two.
Proof.
  assert (NR : noPerElement Examples.widthsOnly "radius")
    by (intros v [i Hi]; vm_compute in Hi; discriminate).
  assert (NC : noConstantFloat Examples.widthsOnly "radius")
    by (intros c Hc; vm_compute in Hc; discriminate).
  assert (W : perElement Examples.widthsOnly "width" [two; four])
    by (by exists Vertex).
  destruct (radius_from_width_pointwise Examples.widthsOnly [two; four] NR NC W)
    as [Hlen Hat].
  split; [exact Hlen | exact (Hat 1%nat)].
Defined.

(** X2: a "radius" attribute that is neither a float vector nor a float
    with [Constant] interpolation is not used: the radius is the one of
    the primitive without that attribute. *)
Theorem radius_ignores_unusable_radius (p : Primitive) (pv : PrimitiveVariable) :
  variables p !! "radius" = Some pv ->
  castFloatVectorData (data pv) = None ->
  interpolation pv <> Constant \/ castFloatData (data pv) = None ->
  radius p = radius (withoutVariable p "radius").
Proof.
  intros Hlook Hvec Hconst.
  assert (H1 : variableData castFloatVectorData p "radius" Invalid = None)
    by (rewrite variableData_any, Hlook; exact Hvec).
  assert (H2 : variableData castFloatData p "radius" Constant = None).
  { rewrite variableData_required, Hlook by done. cbn.
    case_bool_decide; [|done]. by destruct Hconst. }
  assert (H3 : variableData castFloatVectorData (withoutVariable p "radius")
                 "radius" Invalid = None)
    by (rewrite variableData_any; cbn; by rewrite lookup_delete_eq).
  assert (H4 : variableData castFloatData (withoutVariable p "radius")
                 "radius" Constant = None)
    by (rewrite variableData_required by done; cbn; by rewrite lookup_delete_eq).
  assert (Hother : forall T (cast : Data -> option T) n i,
             n <> "radius" ->
             variableData cast (withoutVariable p "radius") n i
             = variableData cast p n i).
  { intros T cast n i Hn. unfold variableData. cbn.
    by rewrite lookup_delete_ne. }
  unfold radius. rewrite H1, H2, H3, H4, !Hother by done. reflexivity.
Qed.

Lemma radius_ignores_unusable_radius_witness :
  radius Examples.uniformRadius = [two]
  /\ radius Examples.uniformRadius
     = radius (withoutVariable Examples.uniformRadius "radius").
Proof.
  split; [reflexivity|].
  apply (radius_ignores_unusable_radius Examples.uniformRadius
           (mkPrimitiveVariable Uniform (FloatData three)));
    [reflexivity | reflexivity | left; discriminate].
Defined.

(** X3: the radius depends on the attributes "radius", "width" and
    "constantwidth" only: not on any other attribute, nor on the kind or
    the sizes of the primitive. *)
Theorem radius_frame (p q : Primitive) :
  variables p !! "radius" = variables q !! "radius" ->
  variables p !! "width" = variables q !! "width" ->
  variables p !! "constantwidth" = variables q !! "constantwidth" ->
  radius p = radius q.
Proof.
  intros Hr Hw Hc. unfold radius, variableData. by rewrite Hr, Hw, Hc.
Qed.

Lemma radius_frame_witness :
  radius (mkPrimitive MeshPrimitiveTypeId
            (<["Cs" := Examples.perPoint]> (variables Examples.widthsOnly))
            Examples.cubicSizes)
  = radius Examples.widthsOnly.
Proof. apply radius_frame; reflexivity. Defined.

(** X4: when the radius comes from no per-element attribute, it has
    exactly one element. *)
Theorem radius_single (p : Primitive) :
  noPerElement p "radius" ->
  (exists c, constantFloat p "radius" c) \/ noPerElement p "width" ->
  length (radius p) = 1%nat.
Proof.
  intros NR Hsrc. pose proof (derives_radius p) as D.
  inversion D as [r E | | w NR' NC E Hw | | |]; try reflexivity.
  - exfalso. exact (NR _ E).
  - exfalso. destruct Hsrc as [[c Hc] | NW]; [exact (NC c Hc) | exact (NW w E)].
Qed.

Lemma radius_single_witness : length (radius Examples.uniformRadius) = 1%nat.
Proof.
  apply radius_single.
  - intros v [i Hi]. vm_compute in Hi. discriminate.
  - right. intros v [i Hi]. vm_compute in Hi. discriminate.
Defined.

Section ConvertRadius.

Context `{Collaborators}.

(** X5: a primitive with none of "radius", "width" and "constantwidth"
    gets a radius array of the single element 0.5, built by one
    [AiArrayConvert] and set under "radius"; nothing is thrown. *)
Theorem convertRadius_default (p : Primitive) (shape : AtNode) (t : Trace) :
  variables p !! "radius" = None ->
  variables p !! "width" = None ->
  variables p !! "constantwidth" = None ->
  convertRadius p shape t
  = (Ok (),
     t ++ [call_AiArrayConvert 1 1 AI_TYPE_FLOAT;
           call_AiNodeSetArray "radius"
             (Some (mkAtArray [AtFloat half] 1 1 AI_TYPE_FLOAT))]).
Proof.
  intros Hr Hw Hc.
  assert (Hrad : radius p = [half])
    by (unfold radius, variableData; by rewrite Hr, Hw, Hc).
  unfold convertRadius, AiArrayConvert. rewrite Hrad.
  cbv beta iota delta [mbind M_bind call mret M_ret].
  by rewrite <- app_assoc.
Qed.

End ConvertRadius.

Lemma convertRadius_default_witness :
  convertRadius (H := Sample.working) Examples.bare Sample.polymesh []
  = (Ok (),
     [call_AiArrayConvert 1 1 4;
      call_AiNodeSetArray "radius" (Some (mkAtArray [AtFloat half] 1 1 4))]).
Proof.
  apply (@convertRadius_default Sample.working Examples.bare Sample.polymesh []);
    reflexivity.
Defined.

(** ** More on the arrays and the positions *)

Section Arrays.

Context `{Collaborators}.

(** X6: for a size in the range of [AtUInt32], [identityIndices] makes
    one allocation and no other call, and returns an array of that many
    elements in which the element at each index is the index. *)
Theorem identityIndices_identity (size : Z) (t : Trace) :
  0 <= size < 2 ^ 32 ->
  exists a : AtArray,
    identityIndices size t
    = (Ok a, t ++ [call_AiArrayAllocate size 1 AI_TYPE_UINT])
    /\ nelements a = size
    /\ length (elements a) = Z.to_nat size
    /\ forall i : nat,
         Z.of_nat i < size -> elements a !! i = Some (AtUInt (Z.of_nat i)).
Proof.
  intros Hsize. eexists. split; [by apply identityIndices_run|].
  cbn. split; [done|]. split; [by rewrite length_fmap, length_seqZ|].
  intros i Hi. by rewrite list_lookup_fmap, lookup_seqZ_lt.
Qed.

(** X7: a primitive with positions "P" (fewer than 2^32) has them copied,
    in order, into one array of points, which is set under the given
    name; these are the only two calls. *)
Theorem convertP_sets_points
    (p : Primitive) (shape : AtNode) (name : string) (v : list V3f) (t : Trace) :
  variables p !! "P" = Some (mkPrimitiveVariable Vertex (V3fVectorData v)) ->
  Z.of_nat (length v) < 2 ^ 32 ->
  convertP p shape name t
  = (Ok (),
     t ++ [call_AiArrayConvert (Z.of_nat (length v)) 1 AI_TYPE_POINT;
           call_AiNodeSetArray name
             (Some (mkAtArray (AtPoint <$> v) (Z.of_nat (length v)) 1
                              AI_TYPE_POINT))]).
Proof.
  intros Hlook Hlen.
  assert (HP : variableData castV3fVectorData p "P" Vertex = Some v)
    by (rewrite variableData_required, Hlook by done; reflexivity).
  unfold convertP, AiArrayConvert. rewrite HP.
  cbv beta iota delta [mbind M_bind call mret M_ret].
  rewrite uint32_small, Z.mul_1_r, Nat2Z.id by lia.
  rewrite take_ge by (by rewrite length_fmap).
  by rewrite <- app_assoc.
Qed.

Lemma collectP_all samples vs :
  Forall2 (fun s v =>
             variables s !! "P"
             = Some (mkPrimitiveVariable Vertex (V3fVectorData v))) samples vs ->
  forall dataSamples t,
    collectP samples dataSamples t
    = (Ok (dataSamples ++ (V3fVectorData <$> vs)), t).
Proof.
  induction 1 as [|s v samples vs Hs _ IH]; intros dataSamples t.
  - cbn. by rewrite app_nil_r.
  - assert (HP : variableData castV3fVectorData s "P" Vertex = Some v)
      by (rewrite variableData_required, Hs by done; reflexivity).
    cbn [collectP]. rewrite HP, IH, <- app_assoc. reflexivity.
Qed.

(** X8: when every motion sample has positions "P", the position data of
    the samples, one per sample and in the order of the samples, go to one
    call of [ParameterAlgo::dataToArray], and what it returns (a null
    array too) is set under the given name. *)
Theorem convertPSamples_sets_samples
    (samples : list Primitive) (vs : list (list V3f)) (shape : AtNode)
    (name : string) (t : Trace) :
  Forall2 (fun s v =>
             variables s !! "P"
             = Some (mkPrimitiveVariable Vertex (V3fVectorData v))) samples vs ->
  convertPSamples samples shape name t
  = (Ok (),
     t ++ [call_samplesToArray (V3fVectorData <$> vs) AI_TYPE_POINT;
           call_AiNodeSetArray name
             (samplesToArray (V3fVectorData <$> vs) AI_TYPE_POINT)]).
Proof.
  intros Hall. unfold convertPSamples.
  cbv beta iota delta [mbind M_bind].
  rewrite (collectP_all samples vs Hall). cbn [app].
  unfold call. by rewrite <- app_assoc.
Qed.

End Arrays.

Lemma identityIndices_identity_witness :
  exists a : AtArray,
    identityIndices (H := Sample.working) 3 []
    = (Ok a, [call_AiArrayAllocate 3 1 2])
    /\ nelements a = 3
    /\ length (elements a) = 3%nat
    /\ forall i : nat,
         Z.of_nat i < 3 -> elements a !! i = Some (AtUInt (Z.of_nat i)).
Proof. apply (@identityIndices_identity Sample.working 3 []). lia. Defined.

Lemma convertP_sets_points_witness :
  convertP (H := Sample.working) Examples.withP Sample.polymesh "points" []
  = (Ok (),
     [call_AiArrayConvert 2 1 8;
      call_AiNodeSetArray "points"
        (Some (mkAtArray (AtPoint <$> Examples.positions) 2 1 8))]).
Proof.
  apply (@convertP_sets_points Sample.working Examples.withP Sample.polymesh
           "points" Examples.positions []); [reflexivity | cbn; lia].
Defined.

Lemma convertPSamples_sets_samples_witness :
  convertPSamples (H := Sample.working) [Examples.withP; Examples.withP]
    Sample.polymesh "points" []
  = (Ok (),
     [call_samplesToArray
        [V3fVectorData Examples.positions; V3fVectorData Examples.positions] 8;
      call_AiNodeSetArray "points"
        (Some (mkAtArray (AtPoint <$> Examples.positions) 2 2 8))]).
Proof.
  apply (@convertPSamples_sets_samples Sample.working
           [Examples.withP; Examples.withP]
           [Examples.positions; Examples.positions] Sample.polymesh "points" []).
  repeat constructor.
Defined.

(** ** More on the conversion of one attribute *)

(** A string that differs from every entry of a list is not in it. *)
Ltac not_listed H :=
  unfold arrayModes in H;
  repeat (apply elem_of_cons in H as [H | H]; [discriminate|]);
  apply elem_of_nil in H.

Section Outcome.

Context `{Collaborators}.

Lemma lookUp_None entry name :
  AiNodeEntryLookUpParameter entry name = None <-> name ∉ params entry.
Proof.
  unfold AiNodeEntryLookUpParameter.
  induction (params entry) as [|n l IH]; cbn.
  - split; [intros _; apply not_elem_of_nil | done].
  - rewrite not_elem_of_cons. destruct (String.eqb_spec name n) as [-> | Hne].
    + split; [done | by intros [? _]].
    + rewrite IH. split; [done | by intros [_ ?]].
Qed.

Lemma convert_clash p pv shape name t :
  ~ noClash shape name ->
  convertPrimitiveVariable p pv shape name t
  = (Ok (), t ++ [call_msg Warning context (clashMessage name)]).
Proof.
  unfold noClash, convertPrimitiveVariable. intros Hclash.
  by destruct (AiNodeEntryLookUpParameter (AiNodeGetNodeEntry shape) name).
Qed.

Lemma convert_type p pv shape name ty isArray t :
  noClash shape name ->
  interpolationSwitch p pv <> EmptyString ->
  resolvedMode p pv <> "constant" ->
  parameterType (data pv) = (ty, isArray) ->
  ty = AI_TYPE_NONE \/ isArray = false ->
  convertPrimitiveVariable p pv shape name t
  = (Ok (), t ++ [call_msg Warning context
                    (unsupportedTypeMessage name (typeName (data pv)))]).
Proof.
  intros Hclash Hsw Hmode Htype Hbad. unfold convertPrimitiveVariable.
  unfold resolvedMode in *. apply String.eqb_neq in Hsw, Hmode.
  rewrite Hclash, Hsw, Hmode, Htype.
  destruct Hbad as [-> | ->]; [by rewrite Z.eqb_refl | by rewrite orb_true_r].
Qed.

Lemma identityIndices_any size :
  exists a, forall t,
    identityIndices size t
    = (Ok a, t ++ [call_AiArrayAllocate size 1 AI_TYPE_UINT]).
Proof. eexists. intros t. reflexivity. Qed.

Lemma afterArray_indexed_any name pv ty array :
  dataToArray (data pv) ty = Some array ->
  exists indices, forall t,
    afterArray "indexed" name pv ty t
    = (Ok (),
       t ++ [call_AiNodeSetArray name (Some array);
             call_AiArrayAllocate (nelements array) 1 AI_TYPE_UINT;
             call_AiNodeSetArray (name +:+ "idxs") (Some indices)]).
Proof.
  intros Harray. destruct (identityIndices_any (nelements array)) as [a Ha].
  exists a. intros t. unfold afterArray. rewrite Harray, bind_call.
  cbn [String.eqb Ascii.eqb Bool.eqb].
  cbv beta iota delta [mbind M_bind]. rewrite Ha.
  unfold call. by rewrite <- !app_assoc.
Qed.

(** Every conversion takes one of the seven ways, and appends the calls
    of that way to the trace. *)
Lemma convert_outcome p pv shape name :
  exists made,
    outcome p pv shape name made
    /\ forall t, convertPrimitiveVariable p pv shape name t = (Ok (), t ++ made).
Proof.
  destruct (AiNodeEntryLookUpParameter (AiNodeGetNodeEntry shape) name)
    as [entry|] eqn:Hclash.
  { assert (Hno : ~ noClash shape name) by (unfold noClash; congruence).
    eexists. split; [by apply out_clash|].
    intros t. by apply convert_clash. }
  destruct (decide (interpolationSwitch p pv = EmptyString)) as [Hsw | Hsw].
  { eexists. split; [by apply out_interpolation|].
    intros t. by apply convert_unsupported. }
  destruct (decide (resolvedMode p pv = "constant")) as [Hmode | Hmode].
  { eexists. split; [by apply out_constant|].
    intros t. by apply convert_constant. }
  destruct (parameterType (data pv)) as [ty isArray] eqn:Htype.
  destruct (decide (ty = AI_TYPE_NONE)) as [Hnone | Hnone].
  { eexists. split; [eapply out_type; eauto|].
    intros t. eapply convert_type; eauto. }
  destruct isArray.
  2: { eexists. split; [eapply out_type; eauto|].
       intros t. eapply convert_type; eauto. }
  assert (Hdecl : declares p pv shape name ty) by done.
  destruct (dataToArray (data pv) ty) as [array|] eqn:Harray.
  - destruct (decide (resolvedMode p pv = "indexed")) as [Hidx | Hidx].
    + destruct (afterArray_indexed_any name pv ty array Harray) as [a Ha].
      eexists. split; [by apply (out_indexed _ _ _ _ ty array a)|].
      intros t. rewrite (convert_array p pv shape name ty t) by done.
      rewrite Hidx, Ha, <- app_assoc. unfold declaration. by rewrite Hidx.
    + eexists. split; [by apply (out_array _ _ _ _ ty array)|].
      intros t. rewrite (convert_array p pv shape name ty t) by done.
      rewrite (afterArray_plain _ _ _ _ array) by done.
      by rewrite <- app_assoc.
  - eexists. split; [by apply (out_null _ _ _ _ ty)|].
    intros t. rewrite (convert_array p pv shape name ty t) by done.
    rewrite afterArray_null by done. by rewrite <- app_assoc.
Qed.

Lemma callsOf_outcome p pv shape name :
  outcome p pv shape name (callsOf p pv shape name)
  /\ forall t,
       convertPrimitiveVariable p pv shape name t
       = (Ok (), t ++ callsOf p pv shape name).
Proof.
  destruct (convert_outcome p pv shape name) as (made & Hout & Hrun).
  assert (Hcalls : callsOf p pv shape name = made)
    by (unfold callsOf; by rewrite Hrun).
  by rewrite Hcalls.
Qed.

(** X20: off a points primitive, a [Vertex] attribute with as many
    vertices as varying values, whose data builds an array, is declared
    "varying <type name>" and set: three calls, and no "idxs" array. *)
Theorem vertex_converts_as_varying
    (p : Primitive) (pv : PrimitiveVariable) (shape : AtNode) (name : string)
    (ty : Z) (array : AtArray) (t : Trace) :
  isInstanceOf p PointsPrimitiveTypeId = false ->
  interpolation pv = Vertex ->
  variableSize p Vertex = variableSize p Varying ->
  name ∉ params (nodeEntry shape) ->
  parameterType (data pv) = (ty, true) ->
  ty <> AI_TYPE_NONE ->
  dataToArray (data pv) ty = Some array ->
  convertPrimitiveVariable p pv shape name t
  = (Ok (),
     t ++ [call_AiNodeDeclare name ("varying" +:+ " " +:+ AiParamGetTypeName ty);
           call_dataToArray (data pv) ty;
           call_AiNodeSetArray name (Some array)]).
Proof.
  intros Hpoints Hi Hsize Hname Htype Hnone Harray.
  assert (Hsw : interpolationSwitch p pv = "varying").
  { unfold interpolationSwitch, vertexCase. by rewrite Hi, Hsize, Z.eqb_refl. }
  assert (Hmode : resolvedMode p pv = "varying")
    by (unfold resolvedMode; rewrite Hsw; by apply pointsOverride_not_points).
  rewrite (convert_array p pv shape name ty t);
    [| by apply lookUp_None | by rewrite Hsw | by rewrite Hmode | done | done].
  rewrite Hmode, (afterArray_plain _ _ _ _ array) by done.
  by rewrite <- app_assoc.
Qed.

Lemma switch_values p pv :
  interpolationSwitch p pv
  ∈ [EmptyString; "constant"; "uniform"; "varying"; "indexed"].
Proof.
  unfold interpolationSwitch, vertexCase.
  destruct (interpolation pv), (isInstanceOf p MeshPrimitiveTypeId);
    try match goal with |- context [?a =? ?b] => destruct (a =? b) end;
    set_solver.
Qed.

Lemma pointsOverride_empty p : pointsOverride p EmptyString = EmptyString.
Proof. unfold pointsOverride. by destruct (isInstanceOf p _). Qed.

Lemma resolvedMode_array p pv :
  interpolationSwitch p pv <> EmptyString ->
  resolvedMode p pv <> "constant" ->
  resolvedMode p pv ∈ arrayModes.
Proof.
  unfold resolvedMode, pointsOverride, arrayModes.
  pose proof (switch_values p pv) as Hsw.
  repeat (apply elem_of_cons in Hsw as [-> | Hsw]);
    [| | | | | by apply elem_of_nil in Hsw];
    destruct (isInstanceOf p PointsPrimitiveTypeId); cbn;
    intros; try done; set_solver.
Qed.

Lemma resolvedMode_indexed p pv :
  resolvedMode p pv = "indexed" ->
  interpolation pv = FaceVarying /\ isInstanceOf p MeshPrimitiveTypeId = true.
Proof.
  unfold resolvedMode, pointsOverride, interpolationSwitch, vertexCase.
  destruct (interpolation pv), (isInstanceOf p MeshPrimitiveTypeId),
    (isInstanceOf p PointsPrimitiveTypeId);
    try match goal with |- context [?a =? ?b] => destruct (a =? b) end;
    cbn; done.
Qed.

(** X9: an attribute whose name is a built-in parameter of the shape is
    dropped: one warning and no other call, whatever the attribute and the
    primitive are. *)
Theorem builtin_clash_only_warns
    (p : Primitive) (pv : PrimitiveVariable) (shape : AtNode) (name : string)
    (t : Trace) :
  name ∈ params (nodeEntry shape) ->
  convertPrimitiveVariable p pv shape name t
  = (Ok (), t ++ [call_msg Warning context (clashMessage name)]).
Proof.
  intros Hin. apply convert_clash. unfold noClash. rewrite lookUp_None.
  intros Hnot. by apply Hnot.
Qed.

(** X10: when the data has no Arnold array type ([parameterType] gives
    [AI_TYPE_NONE], or a type that is not an array), an attribute with an
    array mode is skipped with one warning; nothing is declared or set. *)
Theorem unsupported_type_only_warns
    (p : Primitive) (pv : PrimitiveVariable) (shape : AtNode) (name : string)
    (ty : Z) (isArray : bool) (t : Trace) :
  name ∉ params (nodeEntry shape) ->
  resolvedMode p pv ∈ arrayModes ->
  parameterType (data pv) = (ty, isArray) ->
  ty = AI_TYPE_NONE \/ isArray = false ->
  convertPrimitiveVariable p pv shape name t
  = (Ok (), t ++ [call_msg Warning context
                    (unsupportedTypeMessage name (typeName (data pv)))]).
Proof.
  intros Hname Hmode Htype Hbad.
  apply (convert_type p pv shape name ty isArray); try done.
  - by apply lookUp_None.
  - intros Hsw. unfold resolvedMode in Hmode.
    rewrite Hsw, pointsOverride_empty in Hmode. by not_listed Hmode.
  - intros Hconst. rewrite Hconst in Hmode. by not_listed Hmode.
Qed.

(** X11: an attribute with [Invalid] interpolation is skipped with one
    "unsupported interpolation" warning. *)
Theorem invalid_interpolation_only_warns
    (p : Primitive) (pv : PrimitiveVariable) (shape : AtNode) (name : string)
    (t : Trace) :
  name ∉ params (nodeEntry shape) ->
  interpolation pv = Invalid ->
  convertPrimitiveVariable p pv shape name t
  = (Ok (), t ++ [call_msg Warning context
                    (unsupportedInterpolationMessage name)]).
Proof.
  intros Hname Hi. apply convert_unsupported; [by apply lookUp_None|].
  unfold interpolationSwitch. by rewrite Hi.
Qed.

(** X12: on a points primitive no attribute is converted in "varying"
    mode, and a [Vertex] attribute, when there are as many vertices as
    varying values, is converted in "uniform" mode. *)
Theorem points_never_varying (p : Primitive) (pv : PrimitiveVariable) :
  isInstanceOf p PointsPrimitiveTypeId = true ->
  resolvedMode p pv <> "varying"
  /\ (interpolation pv = Vertex ->
      variableSize p Vertex = variableSize p Varying ->
      resolvedMode p pv = "uniform").
Proof.
  intros Hpoints. split.
  - unfold resolvedMode, pointsOverride. rewrite Hpoints.
    pose proof (switch_values p pv) as Hsw.
    repeat (apply elem_of_cons in Hsw as [-> | Hsw]);
      [| | | | | by apply elem_of_nil in Hsw]; done.
  - intros Hi Hsize. unfold resolvedMode, interpolationSwitch, vertexCase.
    rewrite Hi, Hsize, Z.eqb_refl. by apply pointsOverride_varying.
Qed.

(** X13: the conversion of one attribute never throws, keeps the calls
    made before it, and makes the same calls whatever came before; among
    them is at most one warning, and when it warns it has given no
    parameter a value. *)
Theorem convert_warns_or_sets
    (p : Primitive) (pv : PrimitiveVariable) (shape : AtNode) (name : string)
    (t : Trace) :
  convertPrimitiveVariable p pv shape name t
  = (Ok (), t ++ callsOf p pv shape name)
  /\ (length (List.filter isWarning (callsOf p pv shape name)) <= 1)%nat
  /\ (List.filter isWarning (callsOf p pv shape name) = []
      \/ List.filter setsValue (callsOf p pv shape name) = []).
Proof.
  destruct (callsOf_outcome p pv shape name) as [Hout Hrun].
  split; [apply Hrun|].
  destruct Hout; cbn; split; try lia; auto.
Qed.

(** X14: the only parameters of the node that the conversion of the
    attribute [name] writes to are [name] and, for a [FaceVarying]
    attribute on a mesh only, [name] followed by "idxs". *)
Theorem convert_writes_own_parameters
    (p : Primitive) (pv : PrimitiveVariable) (shape : AtNode) (name : string) :
  Forall (fun c =>
            target c = None
            \/ target c = Some name
            \/ (target c = Some (name +:+ "idxs")
                /\ interpolation pv = FaceVarying
                /\ isInstanceOf p MeshPrimitiveTypeId = true))
         (callsOf p pv shape name).
Proof.
  destruct (callsOf_outcome p pv shape name) as [Hout _].
  destruct Hout as [| | | | | |ty array indices Hdecl Harray Hidx];
    repeat (apply Forall_cons; split); try apply Forall_nil; cbn; auto.
  right. right. split; [done|]. by apply resolvedMode_indexed.
Qed.

(** X15: a declaration is made for the attribute's own name only, with
    the type string "<mode> <type name>" where the mode is one of
    "uniform", "varying" and "indexed", never "constant", and the type is
    the array type of the data. *)
Theorem declaration_has_array_mode
    (p : Primitive) (pv : PrimitiveVariable) (shape : AtNode) (name : string)
    (n d : string) :
  call_AiNodeDeclare n d ∈ callsOf p pv shape name ->
  n = name
  /\ (name ∉ params (nodeEntry shape))
  /\ (resolvedMode p pv ∈ arrayModes)
  /\ exists ty,
       parameterType (data pv) = (ty, true)
       /\ ty <> AI_TYPE_NONE
       /\ d = resolvedMode p pv +:+ " " +:+ AiParamGetTypeName ty.
Proof.
  destruct (callsOf_outcome p pv shape name) as [Hout _].
  intros Hin.
  assert (Hdecl : exists ty,
             declares p pv shape name ty
             /\ call_AiNodeDeclare n d = declaration p pv name ty).
  { destruct Hout as [| | | | ty Hd | ty array Hd | ty array indices Hd];
      repeat (apply elem_of_cons in Hin as [Hin | Hin]; try discriminate);
      try (by apply elem_of_nil in Hin); by exists ty. }
  destruct Hdecl as (ty & (Hclash & Hsw & Hmode & Htype & Hnone) & Heq).
  unfold declaration in Heq. inversion Heq; subst.
  split; [done|]. split; [by apply lookUp_None|].
  split; [by apply resolvedMode_array|]. by exists ty.
Qed.

End Outcome.

Lemma builtin_clash_only_warns_witness :
  convertPrimitiveVariable (H := Sample.working) Examples.triangle
    Examples.perCorner Sample.polymesh "vlist" []
  = (Ok (), [call_msg Warning context (clashMessage "vlist")]).
Proof.
  apply (@builtin_clash_only_warns Sample.working Examples.triangle
           Examples.perCorner Sample.polymesh "vlist" []).
  cbn. apply list_elem_of_further, list_elem_of_here.
Defined.

Lemma unsupported_type_only_warns_witness :
  convertPrimitiveVariable (H := Sample.working) Examples.cubicCurves
    Examples.labels Sample.polymesh "label" []
  = (Ok (), [call_msg Warning context
               (unsupportedTypeMessage "label" "StringVectorData")]).
Proof.
  apply (@unsupported_type_only_warns Sample.working Examples.cubicCurves
           Examples.labels Sample.polymesh "label" 255 false []).
  - intros Hin. cbn in Hin. by not_listed Hin.
  - vm_compute. apply list_elem_of_further, list_elem_of_here.
  - reflexivity.
  - by left.
Defined.

Lemma invalid_interpolation_only_warns_witness :
  convertPrimitiveVariable (H := Sample.working) Examples.triangle
    Examples.unset Sample.polymesh "Cs" []
  = (Ok (), [call_msg Warning context (unsupportedInterpolationMessage "Cs")]).
Proof.
  apply (@invalid_interpolation_only_warns Sample.working Examples.triangle
           Examples.unset Sample.polymesh "Cs" []); [|reflexivity].
  intros Hin. cbn in Hin. by not_listed Hin.
Defined.

Lemma points_never_varying_witness :
  resolvedMode Examples.radiusAndWidth
    (mkPrimitiveVariable Vertex (FloatVectorData [two; four])) = "uniform".
Proof.
  destruct (points_never_varying Examples.radiusAndWidth
              (mkPrimitiveVariable Vertex (FloatVectorData [two; four])) eq_refl)
    as [_ Hvertex].
  apply Hvertex; reflexivity.
Defined.

Lemma declaration_has_array_mode_witness :
  resolvedMode Examples.triangle Examples.perCorner ∈ arrayModes
  /\ exists ty,
       Sample.paramType (data Examples.perCorner) = (ty, true)
       /\ ty <> 255
       /\ "indexed FLOAT"
          = resolvedMode Examples.triangle Examples.perCorner
            +:+ " " +:+ Sample.typeNameOf ty.
Proof.
  destruct (@declaration_has_array_mode Sample.working Examples.triangle
              Examples.perCorner Sample.polymesh "st" "st" "indexed FLOAT")
    as (_ & _ & Hmode & Hty).
  - vm_compute. apply elem_of_cons. by left.
  - split; [exact Hmode | exact Hty].
Defined.

(** ** More on the bulk conversion *)

Section BulkCalls.

Context `{Collaborators}.

Lemma filter_agree {A : Type} (P Q : A -> Prop)
    `{forall x, Decision (P x)} `{forall x, Decision (Q x)} (l : list A) :
  (forall x, x ∈ l -> (P x <-> Q x)) -> filter P l = filter Q l.
Proof.
  induction l as [|x l IH]; [done|]. intros Hagree.
  assert (Hx : P x <-> Q x) by (apply Hagree, list_elem_of_here).
  assert (Hl : filter P l = filter Q l)
    by (apply IH; intros y Hy; by apply Hagree, list_elem_of_further).
  rewrite !filter_cons, Hl.
  destruct (decide (P x)), (decide (Q x)); tauto.
Qed.

Lemma filter_none {A : Type} (P : A -> Prop) `{forall x, Decision (P x)}
    (l : list A) :
  (forall x, x ∈ l -> ~ P x) -> filter P l = [].
Proof.
  induction l as [|x l IH]; [done|]. intros Hnone.
  rewrite filter_cons_False by apply Hnone, list_elem_of_here.
  apply IH. intros y Hy. by apply Hnone, list_elem_of_further.
Qed.

Lemma forEach_cons body it rest t :
  forEach body (it :: rest) t
  = match body it.2 it.1 t with
    | (Ok _, t') => forEach body rest t'
    | (Throw e, t') => (Throw e, t')
    end.
Proof. reflexivity. Qed.

Lemma forEach_calls p shape (l : list (string * PrimitiveVariable)) (t : Trace) :
  forEach (fun second first => convertPrimitiveVariable p second shape first) l t
  = (Ok (), t ++ concat ((fun it => callsOf p it.2 shape it.1) <$> l)).
Proof.
  revert t. induction l as [|it rest IH]; intros t.
  - cbn. by rewrite app_nil_r.
  - rewrite forEach_cons, (proj2 (callsOf_outcome p it.2 shape it.1) t), IH.
    cbn [fmap list_fmap concat]. by rewrite app_assoc.
Qed.

(** X16: the bulk conversion never throws and stops at no attribute: its
    calls are those of the single conversions of the attributes that are
    not ignored, one after the other in the order of the map, each the
    same as if it were converted alone. *)
Theorem bulk_calls_are_concatenated
    (p : Primitive) (shape : AtNode) (namesToIgnore : option (list string))
    (t : Trace) :
  convertPrimitiveVariables p shape namesToIgnore t
  = (Ok (),
     t ++ concat ((fun it => callsOf p it.2 shape it.1)
                    <$> invoked namesToIgnore p)).
Proof.
  unfold convertPrimitiveVariables, invoked.
  rewrite variablesLoop_forEach. apply forEach_calls.
Qed.

(** X17: only the set of the names to ignore matters: two lists with the
    same names, in any order and with any repetition, give the same
    conversion. *)
Theorem ignored_names_as_a_set
    (p : Primitive) (shape : AtNode) (names1 names2 : list string) :
  (forall n, n ∈ names1 <-> n ∈ names2) ->
  convertPrimitiveVariables p shape (Some names1)
  = convertPrimitiveVariables p shape (Some names2).
Proof.
  intros Hsame. unfold convertPrimitiveVariables.
  rewrite !variablesLoop_forEach. f_equal. cbn [ignored].
  apply filter_agree. intros it _. by rewrite Hsame.
Qed.

(** X18: names to ignore that no attribute of the primitive has change
    nothing: the conversion is the one with a null list. *)
Theorem ignoring_absent_names
    (p : Primitive) (shape : AtNode) (names : list string) :
  (forall n, n ∈ names -> variables p !! n = None) ->
  convertPrimitiveVariables p shape (Some names)
  = convertPrimitiveVariables p shape None.
Proof.
  intros Habsent. unfold convertPrimitiveVariables.
  rewrite !variablesLoop_forEach. f_equal. cbn [ignored].
  apply filter_agree. intros [n pv] Hin. cbn.
  apply iterate_elem_of in Hin. split; [intros _; apply not_elem_of_nil|].
  intros _ Hn. apply Habsent in Hn. congruence.
Qed.

(** X19: when every attribute of the primitive is among the names to
    ignore, the bulk conversion makes no call at all. *)
Theorem ignoring_every_attribute
    (p : Primitive) (shape : AtNode) (names : list string) (t : Trace) :
  (forall n pv, variables p !! n = Some pv -> n ∈ names) ->
  convertPrimitiveVariables p shape (Some names) t = (Ok (), t).
Proof.
  intros Hall. unfold convertPrimitiveVariables.
  rewrite variablesLoop_forEach. cbn [ignored].
  rewrite filter_none; [done|].
  intros [n pv] Hin Hnot. apply iterate_elem_of in Hin.
  by apply Hnot, (Hall n pv).
Qed.

End BulkCalls.

Lemma ignored_names_as_a_set_witness :
  convertPrimitiveVariables (H := Sample.working) Examples.radiusAndWidth
    Sample.polymesh (Some ["width"; "P"])
  = convertPrimitiveVariables (H := Sample.working) Examples.radiusAndWidth
      Sample.polymesh (Some ["P"; "width"; "P"]).
Proof.
  apply (@ignored_names_as_a_set Sample.working Examples.radiusAndWidth
           Sample.polymesh ["width"; "P"] ["P"; "width"; "P"]).
  intros n. rewrite !elem_of_cons. tauto.
Defined.

Lemma ignoring_absent_names_witness :
  convertPrimitiveVariables (H := Sample.working) Examples.radiusAndWidth
    Sample.polymesh (Some ["P"; "N"])
  = convertPrimitiveVariables (H := Sample.working) Examples.radiusAndWidth
      Sample.polymesh None.
Proof.
  apply (@ignoring_absent_names Sample.working Examples.radiusAndWidth
           Sample.polymesh ["P"; "N"]).
  intros n Hn.
  apply elem_of_cons in Hn as [-> | Hn]; [reflexivity|].
  apply elem_of_cons in Hn as [-> | Hn]; [reflexivity|].
  by apply elem_of_nil in Hn.
Defined.

Lemma ignoring_every_attribute_witness :
  convertPrimitiveVariables (H := Sample.working) Examples.withP
    Sample.polymesh (Some ["P"; "radius"; "width"]) []
  = (Ok (), []).
Proof.
  apply (@ignoring_every_attribute Sample.working Examples.withP
           Sample.polymesh ["P"; "radius"; "width"] []).
  intros n pv Hlook. destruct (decide (n = "P")) as [-> | Hne].
  - apply list_elem_of_here.
  - unfold Examples.withP in Hlook. cbn in Hlook.
    rewrite lookup_insert_ne in Hlook by done.
    by rewrite lookup_empty in Hlook.
Defined.

Lemma vertex_converts_as_varying_witness :
  convertPrimitiveVariable (H := Sample.working) Examples.triangle
    Examples.perVertex Sample.polymesh "N" []
  = (Ok (),
     [call_AiNodeDeclare "N" "varying FLOAT";
      call_dataToArray (data Examples.perVertex) 4;
      call_AiNodeSetArray "N"
        (Some (mkAtArray (AtFloat <$> [one; two; three; four]) 4 1 4))]).
Proof.
  apply (@vertex_converts_as_varying Sample.working Examples.triangle
           Examples.perVertex Sample.polymesh "N" 4
           (mkAtArray (AtFloat <$> [one; two; three; four]) 4 1 4) []);
    try reflexivity.
  - intros Hin. cbn in Hin. by not_listed Hin.
  - discriminate.
Defined.
